(** * TRADER dashboard: the network core of the frontend

    A shallow embedding of [frontend/src/api/client.ts] (REST paths, the
    [TickerWebSocket] push client) and of the data-fetching part of
    [frontend/src/App.tsx] (the [fetchData] orchestrator and the periodic
    ticker refresher), with the properties of the design document checked
    against them.

    Asynchronous code is modelled by explicit state passing over an event
    loop: a world record holds the program's fields together with the
    host's pending work (sockets, timers, in-flight requests), and every
    callback the host can run is one total step on that record. *)

From Stdlib Require Import String Ascii List Arith Lia Bool.
From Stdlib Require Import Decimal DecimalString.
From stdpp Require Import base list.
Import ListNotations.
Set Warnings "-register-all".
Local Open Scope list_scope.
Local Open Scope string_scope.

(** ** JavaScript values and strings *)

Module Js.

(** Values that travel through the client at run time. TypeScript's
    [Ticker], [OHLCV[]] and [FullAnalysis] are erased: what [response.data]
    and [JSON.parse] hand over is a plain JSON value. A number keeps its
    lexeme; the client never computes with one. *)
Inductive value : Type :=
| VUndefined
| VNull
| VBool (b : bool)
| VNumber (lexeme : string)
| VString (s : string)
| VArray (items : list value)
| VObject (fields : list (string * value)).

(** Exceptions the modelled code can raise or receive. *)
Inductive exn : Type :=
| SyntaxError
| TypeError.

(** Own-property lookup in an object literal as [JSON.parse] builds it: a
    repeated key keeps its last value. *)
Fixpoint lookup_field (k : string) (fields : list (string * value)) : option value :=
  match fields with
  | [] => None
  | (k', v) :: rest =>
      match lookup_field k rest with
      | Some v' => Some v'
      | None => if String.eqb k k' then Some v else None
      end
  end.

(** [v.k] for a key [k] that no prototype defines ([type], [data]):
    reading a property of [null] or [undefined] throws, a primitive or an
    array has no such property. *)
Definition get_prop (v : value) (k : string) : exn + value :=
  match v with
  | VUndefined | VNull => inl TypeError
  | VObject fields =>
      match lookup_field k fields with
      | Some x => inr x
      | None => inr VUndefined
      end
  | _ => inr VUndefined
  end.

(** [v === s] for a string literal [s]. *)
Definition strict_eq_string (v : value) (s : string) : bool :=
  match v with
  | VString s' => String.eqb s' s
  | _ => false
  end.

(** [a || b] on strings: the empty string is the only falsy one. *)
Definition or_else (a b : string) : string :=
  match a with
  | EmptyString => b
  | _ => a
  end.

(** What follows [pat] when [s] starts with it. *)
Fixpoint strip_prefix (pat s : string) : option string :=
  match pat, s with
  | EmptyString, _ => Some s
  | String p pat', String c rest =>
      if Ascii.eqb p c then strip_prefix pat' rest else None
  | String _ _, EmptyString => None
  end.

(** [s.replace(pat, rep)] with a string pattern (and a replacement free of
    [$] patterns): only the first occurrence is replaced. *)
Fixpoint replace (pat rep s : string) : string :=
  match strip_prefix pat s with
  | Some rest => rep ++ rest
  | None =>
      match s with
      | EmptyString => EmptyString
      | String c rest => String c (replace pat rep rest)
      end
  end.

(** Number of occurrences of a character. *)
Fixpoint count_char (c : ascii) (s : string) : nat :=
  match s with
  | EmptyString => 0
  | String c' rest => (if Ascii.eqb c' c then 1 else 0) + count_char c rest
  end.

End Js.

(** ** REST paths: [api/client.ts] *)

Module Api.
Import Js.

(** [const formatSymbol = (symbol: string) => symbol.replace('/', '-')] *)
Definition formatSymbol (symbol : string) : string := replace "/" "-" symbol.

(** Modelled from the spec: the display transform that takes a path
    segment back to a symbol. The server side that reads the segment is
    not among the frontend sources; the design calls it "replacing - back
    with /", the mirror image of [formatSymbol]. *)
Definition unformatSymbol (segment : string) : string := replace "-" "/" segment.

(** Modelled from the spec: the same transform read as replacing every
    dash rather than the first one. *)
Fixpoint unformatSymbolAll (segment : string) : string :=
  match segment with
  | EmptyString => EmptyString
  | String c rest =>
      String (if Ascii.eqb c "-" then "/"%char else c) (unformatSymbolAll rest)
  end.

End Api.

(** ** A reference reader for JSON text

    [JSON.parse] belongs to the engine; the push client below takes it as
    a parameter. This reader follows the JSON grammar and serves to run
    the client on concrete payloads. *)

Module Json.
Import Js.

Definition quote : ascii := ascii_of_nat 34.
Definition backslash : ascii := ascii_of_nat 92.

Definition is_ws (c : ascii) : bool :=
  let n := nat_of_ascii c in
  ((n =? 32) || (n =? 9) || (n =? 10) || (n =? 13))%nat.

Definition is_digit (c : ascii) : bool :=
  let n := nat_of_ascii c in ((48 <=? n) && (n <=? 57))%nat.

Fixpoint skip_ws (s : string) : string :=
  match s with
  | String c rest => if is_ws c then skip_ws rest else s
  | EmptyString => EmptyString
  end.

(** The longest prefix of digits, and what follows it. *)
Fixpoint take_digits (s : string) : string * string :=
  match s with
  | String c rest =>
      if is_digit c
      then let (ds, r) := take_digits rest in (String c ds, r)
      else (EmptyString, s)
  | EmptyString => (EmptyString, EmptyString)
  end.

Definition take_char (c : ascii) (s : string) : option string :=
  match s with
  | String c' rest => if Ascii.eqb c' c then Some rest else None
  | EmptyString => None
  end.

(** [int frac? exp?] after an optional minus sign; no leading zero. *)
Definition parse_number (s : string) : option (string * string) :=
  let (sign, s1) :=
    match take_char "-" s with Some r => ("-", r) | None => (EmptyString, s) end in
  let (int, s2) := take_digits s1 in
  match int with
  | EmptyString => None
  | String d more =>
      if Ascii.eqb d "0" && negb (String.eqb more EmptyString) then None else
      let frac :=
        match take_char "." s2 with
        | Some r =>
            let (ds, r') := take_digits r in
            match ds with
            | EmptyString => None
            | _ => Some ("." ++ ds, r')
            end
        | None => Some (EmptyString, s2)
        end in
      match frac with
      | None => None
      | Some (fr, s3) =>
          let mark :=
            match take_char "e" s3, take_char "E" s3 with
            | Some r, _ => Some ("e", r)
            | None, Some r => Some ("E", r)
            | None, None => None
            end in
          match mark with
          | None => Some (sign ++ int ++ fr, s3)
          | Some (e, s4) =>
              let (esign, s5) :=
                match take_char "-" s4, take_char "+" s4 with
                | Some r, _ => ("-", r)
                | None, Some r => ("+", r)
                | None, None => (EmptyString, s4)
                end in
              let (ds, s6) := take_digits s5 in
              match ds with
              | EmptyString => None
              | _ => Some (sign ++ int ++ fr ++ e ++ esign ++ ds, s6)
              end
          end
      end
  end.

Definition hex_digit (c : ascii) : option nat :=
  let n := nat_of_ascii c in
  if ((48 <=? n) && (n <=? 57))%nat then Some (n - 48)
  else if ((65 <=? n) && (n <=? 70))%nat then Some (n - 55)
  else if ((97 <=? n) && (n <=? 102))%nat then Some (n - 87)
  else None.

(** UTF-8 bytes of a code unit below 0x10000. *)
Definition utf8 (n : nat) : string :=
  if (n <? 128)%nat then String (ascii_of_nat n) EmptyString
  else if (n <? 2048)%nat then
    String (ascii_of_nat (192 + n / 64))
      (String (ascii_of_nat (128 + n mod 64)) EmptyString)
  else
    String (ascii_of_nat (224 + n / 4096))
      (String (ascii_of_nat (128 + (n / 64) mod 64))
         (String (ascii_of_nat (128 + n mod 64)) EmptyString)).

Definition unescape (c : ascii) : option ascii :=
  if Ascii.eqb c quote then Some quote
  else if Ascii.eqb c backslash then Some backslash
  else if Ascii.eqb c "/" then Some "/"%char
  else if Ascii.eqb c "b" then Some (ascii_of_nat 8)
  else if Ascii.eqb c "f" then Some (ascii_of_nat 12)
  else if Ascii.eqb c "n" then Some (ascii_of_nat 10)
  else if Ascii.eqb c "r" then Some (ascii_of_nat 13)
  else if Ascii.eqb c "t" then Some (ascii_of_nat 9)
  else None.

Definition prepend (pre : string) (r : option (string * string)) : option (string * string) :=
  match r with
  | Some (str, rest) => Some (pre ++ str, rest)
  | None => None
  end.

(** The characters of a string literal after its opening quote. *)
Fixpoint parse_string (s : string) : option (string * string) :=
  match s with
  | EmptyString => None
  | String c r =>
      if Ascii.eqb c quote then Some (EmptyString, r)
      else if Ascii.eqb c backslash then
        match r with
        | EmptyString => None
        | String e r1 =>
            match unescape e with
            | Some ch => prepend (String ch EmptyString) (parse_string r1)
            | None =>
                if Ascii.eqb e "u" then
                  match r1 with
                  | String h1 (String h2 (String h3 (String h4 r2))) =>
                      match hex_digit h1, hex_digit h2, hex_digit h3, hex_digit h4 with
                      | Some a, Some b, Some c', Some d =>
                          prepend (utf8 (((a * 16 + b) * 16 + c') * 16 + d)) (parse_string r2)
                      | _, _, _, _ => None
                      end
                  | _ => None
                  end
                else None
            end
        end
      else if (nat_of_ascii c <? 32)%nat then None
      else prepend (String c EmptyString) (parse_string r)
  end.

Definition literal (word : string) (v : value) (s : string) : option (value * string) :=
  match strip_prefix word s with
  | Some r => Some (v, r)
  | None => None
  end.

Fixpoint parse_value (fuel : nat) (s : string) : option (value * string) :=
  match fuel with
  | 0 => None
  | S fuel' =>
      match skip_ws s with
      | EmptyString => None
      | String c rest as s' =>
          if Ascii.eqb c "n" then literal "null" VNull s'
          else if Ascii.eqb c "t" then literal "true" (VBool true) s'
          else if Ascii.eqb c "f" then literal "false" (VBool false) s'
          else if Ascii.eqb c quote then
            match parse_string rest with
            | Some (str, r) => Some (VString str, r)
            | None => None
            end
          else if Ascii.eqb c "[" then
            match take_char "]" (skip_ws rest) with
            | Some r => Some (VArray [], r)
            | None => parse_elements fuel' rest []
            end
          else if Ascii.eqb c "{" then
            match take_char "}" (skip_ws rest) with
            | Some r => Some (VObject [], r)
            | None => parse_members fuel' rest []
            end
          else
            match parse_number s' with
            | Some (lexeme, r) => Some (VNumber lexeme, r)
            | None => None
            end
      end
  end
with parse_elements (fuel : nat) (s : string) (acc : list value) : option (value * string) :=
  match fuel with
  | 0 => None
  | S fuel' =>
      match parse_value fuel' s with
      | None => None
      | Some (v, r) =>
          match skip_ws r with
          | EmptyString => None
          | String c r' =>
              if Ascii.eqb c "," then parse_elements fuel' r' (v :: acc)
              else if Ascii.eqb c "]" then Some (VArray (rev (v :: acc)), r')
              else None
          end
      end
  end
with parse_members (fuel : nat) (s : string) (acc : list (string * value)) : option (value * string) :=
  match fuel with
  | 0 => None
  | S fuel' =>
      match take_char quote (skip_ws s) with
      | None => None
      | Some r =>
          match parse_string r with
          | None => None
          | Some (k, r1) =>
              match take_char ":" (skip_ws r1) with
              | None => None
              | Some r2 =>
                  match parse_value fuel' r2 with
                  | None => None
                  | Some (v, r3) =>
                      match skip_ws r3 with
                      | EmptyString => None
                      | String c r4 =>
                          if Ascii.eqb c "," then parse_members fuel' r4 ((k, v) :: acc)
                          else if Ascii.eqb c "}" then Some (VObject (rev ((k, v) :: acc)), r4)
                          else None
                      end
                  end
              end
          end
      end
  end.

(** The whole text must be one value, surrounded by white space only.
    Every nested call consumes a character first, so twice the length is
    fuel enough. *)
Definition parse (text : string) : option value :=
  match parse_value (2 * String.length text + 2) text with
  | Some (v, r) =>
      match skip_ws r with
      | EmptyString => Some v
      | _ => None
      end
  | None => None
  end.

(** Payloads are written with single quotes and turned into JSON text. *)
Fixpoint dq (s : string) : string :=
  match s with
  | EmptyString => EmptyString
  | String c rest => String (if Ascii.eqb c "'" then quote else c) (dq rest)
  end.

End Json.

(** ** The push client: [class TickerWebSocket] of [api/client.ts] *)

Module TickerWebSocket.
Import Js.

(** [WebSocket.readyState] *)
Inductive ReadyState : Type := CONNECTING | OPEN | CLOSING | CLOSED.

(** What the client does to the outside, in program order. *)
Inductive Effect : Type :=
| NewWebSocket (url : string)   (* new WebSocket(wsUrl) *)
| WsClose (sock : nat)          (* this.ws.close() *)
| SetTimeout (delay : nat)      (* setTimeout(() => this.connect(), delay) *)
| OnMessage (data : value)      (* this.onMessage(data.data) *)
| OnError (sock : nat)          (* this.onError(error) *)
| Uncaught (e : exn).           (* an exception that leaves a handler *)

(** The private fields; a socket is named by its creation index. *)
Record Instance : Type := {
  ws : option nat;
  symbol : string;
  reconnectAttempts : nat;
  maxReconnectAttempts : nat
}.

(** The instance together with the host: every socket created so far, the
    pending timeouts (each one runs [this.connect()]; the delay it was
    given is kept) and the effects so far. *)
Record World : Type := {
  this : Instance;
  location_host : string;
  sockets : list ReadyState;
  timers : list nat;
  effects : list Effect
}.

Definition with_this (f : Instance -> Instance) (w : World) : World :=
  {| this := f (this w); location_host := location_host w;
     sockets := sockets w; timers := timers w; effects := effects w |}.

Definition with_sockets (f : list ReadyState -> list ReadyState) (w : World) : World :=
  {| this := this w; location_host := location_host w;
     sockets := f (sockets w); timers := timers w; effects := effects w |}.

Definition with_timers (f : list nat -> list nat) (w : World) : World :=
  {| this := this w; location_host := location_host w;
     sockets := sockets w; timers := f (timers w); effects := effects w |}.

Definition emit (e : Effect) (w : World) : World :=
  {| this := this w; location_host := location_host w;
     sockets := sockets w; timers := timers w; effects := (effects w ++ [e])%list |}.

Definition set_ws (x : option nat) (i : Instance) : Instance :=
  {| ws := x; symbol := symbol i; reconnectAttempts := reconnectAttempts i;
     maxReconnectAttempts := maxReconnectAttempts i |}.

Definition incr_reconnectAttempts (i : Instance) : Instance :=
  {| ws := ws i; symbol := symbol i; reconnectAttempts := S (reconnectAttempts i);
     maxReconnectAttempts := maxReconnectAttempts i |}.

(** [constructor(symbol, onMessage, onError)], with the field
    initialisers [reconnectAttempts = 0] and [maxReconnectAttempts = 5]. *)
Definition constructor (sym : string) : Instance :=
  {| ws := None; symbol := sym; reconnectAttempts := 0; maxReconnectAttempts := 5 |}.

Definition boot (host sym : string) : World :=
  {| this := constructor sym; location_host := host;
     sockets := []; timers := []; effects := [] |}.

(** [connect()]: a new socket replaces [this.ws]; the three handlers
    below are attached to it. *)
Definition connect (w : World) : World :=
  let wsUrl := "ws://" ++ location_host w ++ "/ws/ticker/" ++ replace "/" "-" (symbol (this w)) in
  let sock := length (sockets w) in
  with_this (set_ws (Some sock))
    (with_sockets (fun l => (l ++ [CONNECTING])%list)
       (emit (NewWebSocket wsUrl) w)).

(** [ws.close()]: a socket that is still connecting or open starts its
    closing handshake; its close event comes later. *)
Definition ws_close (sock : nat) (l : list ReadyState) : list ReadyState :=
  match l !! sock with
  | Some CONNECTING | Some OPEN => <[sock := CLOSING]> l
  | _ => l
  end.

(** [disconnect()] *)
Definition disconnect (w : World) : World :=
  match ws (this w) with
  | Some sock =>
      with_this (set_ws None)
        (with_sockets (ws_close sock) (emit (WsClose sock) w))
  | None => w
  end.

Section Handlers.

(** [JSON.parse]: [None] stands for the [SyntaxError] it throws. *)
Variable JSON_parse : string -> option value.

(** [this.ws.onmessage = (event) => { ... }] on [event.data]. *)
Definition onmessage (event_data : string) (w : World) : exn + World :=
  match JSON_parse event_data with
  | None => inl SyntaxError
  | Some data =>
      match get_prop data "type" with
      | inl e => inl e
      | inr type =>
          if strict_eq_string type "ticker" then
            match get_prop data "data" with
            | inl e => inl e
            | inr d => inr (emit (OnMessage d) w)
            end
          else inr w
      end
  end.

(** [this.ws.onerror = (error) => { this.onError(error) }] *)
Definition onerror (sock : nat) (w : World) : World := emit (OnError sock) w.

(** [this.ws.onclose = () => { ... }] *)
Definition onclose (w : World) : World :=
  if (reconnectAttempts (this w) <? maxReconnectAttempts (this w))%nat then
    with_timers (fun l => (l ++ [3000])%list)
      (emit (SetTimeout 3000)
         (with_this incr_reconnectAttempts w))
  else w.

(** What can happen next: a call by the owner of the instance, an event
    of the network on one socket, or a pending timeout that fires. *)
Inductive Event : Type :=
| CallConnect
| CallDisconnect
| SockOpen (sock : nat)
| SockMessage (sock : nat) (event_data : string)
| SockError (sock : nat)
| SockClose (sock : nat)
| TimerFires (k : nat).

(** One turn of the event loop. An event that cannot occur in the
    current world (an unknown socket, a message on a socket that is not
    open, a timer that is not pending) changes nothing. *)
Definition step (w : World) (ev : Event) : World :=
  match ev with
  | CallConnect => connect w
  | CallDisconnect => disconnect w
  | SockOpen sock =>
      match sockets w !! sock with
      | Some CONNECTING => with_sockets (fun l => <[sock := OPEN]> l) w
      | _ => w
      end
  | SockMessage sock event_data =>
      match sockets w !! sock with
      | Some OPEN =>
          match onmessage event_data w with
          | inr w' => w'
          | inl e => emit (Uncaught e) w
          end
      | _ => w
      end
  | SockError sock =>
      match sockets w !! sock with
      | Some CONNECTING | Some OPEN | Some CLOSING => onerror sock w
      | _ => w
      end
  | SockClose sock =>
      match sockets w !! sock with
      | Some CONNECTING | Some OPEN | Some CLOSING =>
          onclose (with_sockets (fun l => <[sock := CLOSED]> l) w)
      | _ => w
      end
  | TimerFires k =>
      match timers w !! k with
      | Some _ => connect (with_timers (delete k) w)
      | None => w
      end
  end.

Definition run (w : World) (evs : list Event) : World := fold_left step evs w.

End Handlers.

(** *** Reading the world *)

Definition is_NewWebSocket (e : Effect) : bool :=
  match e with NewWebSocket _ => true | _ => false end.

Definition is_callback (e : Effect) : bool :=
  match e with OnMessage _ | OnError _ => true | _ => false end.

Definition is_CallConnect (ev : Event) : bool :=
  match ev with CallConnect => true | _ => false end.

(** Sockets created so far. *)
Definition sockets_created (w : World) : nat :=
  length (List.filter is_NewWebSocket (effects w)).

(** The delays of the reconnections scheduled so far. *)
Definition scheduled_delays (w : World) : list nat :=
  flat_map (fun e => match e with SetTimeout d => [d] | _ => [] end) (effects w).

(** Calls of [connect()] by the owner among the events. *)
Definition explicit_connects (evs : list Event) : nat :=
  length (List.filter is_CallConnect evs).

(** Callbacks handed to the owner so far. *)
Definition callbacks (w : World) : list Effect := List.filter is_callback (effects w).

(** The states of the design document, read off the fields. *)
Inductive ConnectionState : Type :=
| Idle | Connecting | Open | Reconnecting | ClosedPermanent.

Definition connection_state (w : World) : ConnectionState :=
  match timers w with
  | _ :: _ => Reconnecting
  | [] =>
      match ws (this w) with
      | None => Idle
      | Some sock =>
          match sockets w !! sock with
          | Some CONNECTING => Connecting
          | Some OPEN => Open
          | Some CLOSED =>
              if (reconnectAttempts (this w) <? maxReconnectAttempts (this w))%nat
              then Idle else ClosedPermanent
          | _ => Idle
          end
      end
  end.

(** [n] failed connections in a row on a client that has just connected:
    the current socket closes and the reconnection that was scheduled, if
    any, fires. The [k]-th socket is the current one in round [k]. *)
Definition failures (n : nat) : list Event :=
  flat_map (fun k => [SockClose k; TimerFires 0]) (seq 0 n).

(** A client whose connection has failed [k] times in a row and that is
    trying again: socket [k] is connecting, the earlier ones are closed. *)
Definition retrying (k : nat) (w : World) : Prop :=
  reconnectAttempts (this w) = k
  /\ maxReconnectAttempts (this w) = 5
  /\ ws (this w) = Some k
  /\ sockets w = (repeat CLOSED k ++ [CONNECTING])%list
  /\ timers w = []
  /\ scheduled_delays w = repeat 3000 k
  /\ sockets_created w = S k.

(** A client that has used up its five reconnections. *)
Definition given_up (w : World) : Prop :=
  reconnectAttempts (this w) = 5
  /\ maxReconnectAttempts (this w) = 5
  /\ ws (this w) = Some 5
  /\ sockets w = repeat CLOSED 6
  /\ timers w = []
  /\ scheduled_delays w = repeat 3000 5
  /\ sockets_created w = 6.

(** A client for the examples, as the dashboard would create it on the
    development server. *)
Definition fresh : World := boot "localhost:5173" "BTC/USDT".
Definition url : string := "ws://localhost:5173/ws/ticker/BTC-USDT".

End TickerWebSocket.

(** ** The dashboard: data fetching in [App.tsx] *)

Module Loading.

(** [useState({ symbols: false, ticker: false, chart: false, analysis: false })] *)
Record t : Type := {
  symbols : bool;
  ticker : bool;
  chart : bool;
  analysis : bool
}.

Definition initial : t :=
  {| symbols := false; ticker := false; chart := false; analysis := false |}.

(** [l => ({ ...l, symbols: b })] and its siblings *)
Definition set_symbols (b : bool) (l : t) : t :=
  {| symbols := b; ticker := ticker l; chart := chart l; analysis := analysis l |}.
Definition set_ticker (b : bool) (l : t) : t :=
  {| symbols := symbols l; ticker := b; chart := chart l; analysis := analysis l |}.
Definition set_chart (b : bool) (l : t) : t :=
  {| symbols := symbols l; ticker := ticker l; chart := b; analysis := analysis l |}.
Definition set_analysis (b : bool) (l : t) : t :=
  {| symbols := symbols l; ticker := ticker l; chart := chart l; analysis := b |}.

End Loading.

Module App.
Import Js Api.

(** *** The REST client of [api/client.ts] *)

(** A GET request as [api.get(url, { params })] receives it. *)
Record Request : Type := {
  url : string;
  params : list (string * value)
}.

(** [marketApi.getSymbols('binance')] *)
Definition getSymbols_request (exchange : string) : Request :=
  {| url := "/market/symbols/" ++ exchange; params := [] |}.

(** [marketApi.getTicker(symbol)], [exchange] defaulting to ['binance'] *)
Definition getTicker_request (symbol : string) : Request :=
  {| url := "/market/ticker/" ++ formatSymbol symbol;
     params := [("exchange", VString "binance")] |}.

(** [marketApi.getOHLCV(symbol, timeframe)], defaults ['binance'], [500] *)
Definition getOHLCV_request (symbol timeframe : string) : Request :=
  {| url := "/market/ohlcv/" ++ formatSymbol symbol;
     params := [("timeframe", VString timeframe); ("exchange", VString "binance");
                ("limit", VNumber "500")] |}.

(** [analysisApi.getFullAnalysis(symbol)] *)
Definition getFullAnalysis_request (symbol : string) : Request :=
  {| url := "/analysis/full/" ++ formatSymbol symbol;
     params := [("exchange", VString "binance")] |}.

(** What the network does with a request. *)
Inductive Outcome : Type :=
| Http (status : nat) (body : value)
| NetworkError
| Timeout.

(** The error object axios rejects with. *)
Record AxiosError : Type := {
  message : string;
  response : option (nat * value)
}.

Definition show_nat (n : nat) : string := NilEmpty.string_of_uint (Nat.to_uint n).

(** The contract of the transport library (axios, an outside
    dependency) for [await api.get(...)] with the default
    [validateStatus] and [timeout: 30000]: a 2xx response resolves to
    the response, whose [data] is the body; anything else rejects with an
    error whose [message] is the library's own text. *)
Definition api_get (o : Outcome) : AxiosError + value :=
  match o with
  | Http status body =>
      if ((200 <=? status) && (status <? 300))%nat then inr body
      else inl {| message := "Request failed with status code " ++ show_nat status;
                  response := Some (status, body) |}
  | NetworkError => inl {| message := "Network Error"; response := None |}
  | Timeout => inl {| message := "timeout of 30000ms exceeded"; response := None |}
  end.

(** Whatever a [catch] clause can receive here. *)
Inductive Thrown : Type :=
| FromAxios (e : AxiosError)
| FromEngine (e : exn).

(** [return response.data.symbols] *)
Definition getSymbols (o : Outcome) : Thrown + value :=
  match api_get o with
  | inl e => inl (FromAxios e)
  | inr data =>
      match get_prop data "symbols" with
      | inl e => inl (FromEngine e)
      | inr v => inr v
      end
  end.

(** [return response.data] *)
Definition getTicker (o : Outcome) : AxiosError + value := api_get o.

(** [return response.data.data] *)
Definition getOHLCV (o : Outcome) : Thrown + value :=
  match api_get o with
  | inl e => inl (FromAxios e)
  | inr data =>
      match get_prop data "data" with
      | inl e => inl (FromEngine e)
      | inr v => inr v
      end
  end.

(** [return response.data] *)
Definition getFullAnalysis (o : Outcome) : AxiosError + value := api_get o.

(** *** View model state: the [useState] cells of [App] *)

Record State : Type := {
  symbols : value;
  selectedSymbol : string;
  chartTimeframe : string;
  ticker : value;
  ohlcv : value;
  analysis : value;
  loading : Loading.t;
  error : option string;
  lastUpdate : option nat
}.

Definition initial : State :=
  {| symbols := VArray []; selectedSymbol := "BTC/USDT"; chartTimeframe := "1h";
     ticker := VNull; ohlcv := VArray []; analysis := VNull;
     loading := Loading.initial; error := None; lastUpdate := None |}.

Definition setSymbols (v : value) (s : State) : State :=
  {| symbols := v; selectedSymbol := selectedSymbol s; chartTimeframe := chartTimeframe s;
     ticker := ticker s; ohlcv := ohlcv s; analysis := analysis s;
     loading := loading s; error := error s; lastUpdate := lastUpdate s |}.
Definition setSelectedSymbol (x : string) (s : State) : State :=
  {| symbols := symbols s; selectedSymbol := x; chartTimeframe := chartTimeframe s;
     ticker := ticker s; ohlcv := ohlcv s; analysis := analysis s;
     loading := loading s; error := error s; lastUpdate := lastUpdate s |}.
Definition setChartTimeframe (x : string) (s : State) : State :=
  {| symbols := symbols s; selectedSymbol := selectedSymbol s; chartTimeframe := x;
     ticker := ticker s; ohlcv := ohlcv s; analysis := analysis s;
     loading := loading s; error := error s; lastUpdate := lastUpdate s |}.
Definition setTicker (v : value) (s : State) : State :=
  {| symbols := symbols s; selectedSymbol := selectedSymbol s; chartTimeframe := chartTimeframe s;
     ticker := v; ohlcv := ohlcv s; analysis := analysis s;
     loading := loading s; error := error s; lastUpdate := lastUpdate s |}.
Definition setOhlcv (v : value) (s : State) : State :=
  {| symbols := symbols s; selectedSymbol := selectedSymbol s; chartTimeframe := chartTimeframe s;
     ticker := ticker s; ohlcv := v; analysis := analysis s;
     loading := loading s; error := error s; lastUpdate := lastUpdate s |}.
Definition setAnalysis (v : value) (s : State) : State :=
  {| symbols := symbols s; selectedSymbol := selectedSymbol s; chartTimeframe := chartTimeframe s;
     ticker := ticker s; ohlcv := ohlcv s; analysis := v;
     loading := loading s; error := error s; lastUpdate := lastUpdate s |}.
Definition setLoading (f : Loading.t -> Loading.t) (s : State) : State :=
  {| symbols := symbols s; selectedSymbol := selectedSymbol s; chartTimeframe := chartTimeframe s;
     ticker := ticker s; ohlcv := ohlcv s; analysis := analysis s;
     loading := f (loading s); error := error s; lastUpdate := lastUpdate s |}.
Definition setError (x : option string) (s : State) : State :=
  {| symbols := symbols s; selectedSymbol := selectedSymbol s; chartTimeframe := chartTimeframe s;
     ticker := ticker s; ohlcv := ohlcv s; analysis := analysis s;
     loading := loading s; error := x; lastUpdate := lastUpdate s |}.
Definition setLastUpdate (x : option nat) (s : State) : State :=
  {| symbols := symbols s; selectedSymbol := selectedSymbol s; chartTimeframe := chartTimeframe s;
     ticker := ticker s; ohlcv := ohlcv s; analysis := analysis s;
     loading := loading s; error := error s; lastUpdate := x |}.

(** *** Suspended code *)

(** The three [await]s of [fetchData]. *)
Inductive Await : Type := AwaitTicker | AwaitOHLCV | AwaitAnalysis.

(** What runs when a request settles. A [fetchData] in progress carries
    the [selectedSymbol] and [chartTimeframe] its closure was created
    with; the interval callback carries its [selectedSymbol]. *)
Inductive Continuation : Type :=
| InFetchSymbols
| InFetchData (symbol timeframe : string) (at_ : Await)
| InRefresh (symbol : string).

(** A request that was issued, with its continuation while it is pending. *)
Record Call : Type := {
  request : Request;
  continuation : option Continuation
}.

(** An active [setInterval] timer and the symbol of its callback. *)
Record Interval : Type := {
  iv_id : nat;
  iv_delay : nat;
  iv_symbol : string
}.

(** Calls to the host other than requests, in program order. *)
Inductive Effect : Type :=
| ConsoleError (label : string)
| SetInterval (id delay : nat)
| ClearInterval (id : nat).

(** The component and its host: the state cells, every request issued so
    far, the host's interval timers, the cleanup of the interval effect
    (the timer it will clear), the clock behind [new Date()]. *)
Record World : Type := {
  view : State;
  calls : list Call;
  intervals : list Interval;
  next_timer : nat;
  cleanup : option nat;
  now : nat;
  log : list Effect
}.

Definition with_view (f : State -> State) (w : World) : World :=
  {| view := f (view w); calls := calls w; intervals := intervals w;
     next_timer := next_timer w; cleanup := cleanup w; now := now w; log := log w |}.

Definition with_calls (f : list Call -> list Call) (w : World) : World :=
  {| view := view w; calls := f (calls w); intervals := intervals w;
     next_timer := next_timer w; cleanup := cleanup w; now := now w; log := log w |}.

Definition emit (e : Effect) (w : World) : World :=
  {| view := view w; calls := calls w; intervals := intervals w;
     next_timer := next_timer w; cleanup := cleanup w; now := now w;
     log := (log w ++ [e])%list |}.

Definition elapse (ms : nat) (w : World) : World :=
  {| view := view w; calls := calls w; intervals := intervals w;
     next_timer := next_timer w; cleanup := cleanup w; now := now w + ms; log := log w |}.

(** [await api.get(...)]: the request leaves and the caller is suspended. *)
Definition issue (r : Request) (k : Continuation) (w : World) : World :=
  with_calls (fun l => (l ++ [{| request := r; continuation := Some k |}])%list) w.

(** The request has settled: its continuation is consumed. *)
Definition settle (id : nat) (l : list Call) : list Call :=
  match l !! id with
  | Some c => <[id := {| request := request c; continuation := None |}]> l
  | None => l
  end.

(** [const interval = setInterval(async () => {...}, 5000)], with the
    cleanup [() => clearInterval(interval)] kept for later. *)
Definition start_interval (symbol : string) (w : World) : World :=
  let id := next_timer w in
  emit (SetInterval id 5000)
    {| view := view w; calls := calls w;
       intervals := (intervals w ++ [{| iv_id := id; iv_delay := 5000; iv_symbol := symbol |}])%list;
       next_timer := S id; cleanup := Some id; now := now w; log := log w |}.

(** [clearInterval(id)] *)
Definition clearInterval (id : nat) (w : World) : World :=
  emit (ClearInterval id)
    {| view := view w; calls := calls w;
       intervals := List.filter (fun iv => negb (Nat.eqb (iv_id iv) id)) (intervals w);
       next_timer := next_timer w; cleanup := cleanup w; now := now w; log := log w |}.

(** The cleanup of the interval effect, run before the effect runs again. *)
Definition run_cleanup (w : World) : World :=
  match cleanup w with
  | Some id => clearInterval id w
  | None => w
  end.

(** *** The code of the component *)

(** [fetchSymbols()] up to its [await]. *)
Definition fetchSymbols (w : World) : World :=
  issue (getSymbols_request "binance") InFetchSymbols
    (with_view (setLoading (Loading.set_symbols true)) w).

(** [fetchData()] up to its first [await], for the closure over
    [symbol] and [timeframe]. *)
Definition fetchData (symbol timeframe : string) (w : World) : World :=
  issue (getTicker_request symbol) (InFetchData symbol timeframe AwaitTicker)
    (with_view (setLoading (Loading.set_ticker true))
       (with_view (setError None) w)).

(** The rest of [fetchSymbols] once its request has settled. *)
Definition resume_fetchSymbols (o : Outcome) (w : World) : World :=
  with_view (setLoading (Loading.set_symbols false))
    match getSymbols o with
    | inr data => with_view (setSymbols data) w
    | inl _ => emit (ConsoleError "Failed to fetch symbols:") w
    end.

(** [fetchData] from one [await] to the next, or to its end. *)
Definition resume_fetchData (symbol timeframe : string) (at_ : Await) (o : Outcome) (w : World) : World :=
  match at_ with
  | AwaitTicker =>
      let w1 :=
        match getTicker o with
        | inr tickerData => with_view (setTicker tickerData) w
        | inl _ => emit (ConsoleError "Ticker error:") w
        end in
      let w2 := with_view (setLoading (Loading.set_ticker false)) w1 in
      issue (getOHLCV_request symbol timeframe) (InFetchData symbol timeframe AwaitOHLCV)
        (with_view (setLoading (Loading.set_chart true)) w2)
  | AwaitOHLCV =>
      let w1 :=
        match getOHLCV o with
        | inr ohlcvData => with_view (setOhlcv ohlcvData) w
        | inl _ => emit (ConsoleError "OHLCV error:") w
        end in
      let w2 := with_view (setLoading (Loading.set_chart false)) w1 in
      issue (getFullAnalysis_request symbol) (InFetchData symbol timeframe AwaitAnalysis)
        (with_view (setLoading (Loading.set_analysis true)) w2)
  | AwaitAnalysis =>
      let w1 :=
        match getFullAnalysis o with
        | inr analysisData =>
            with_view (setLastUpdate (Some (now w)))
              (with_view (setAnalysis analysisData) w)
        | inl err =>
            with_view (setError (Some (or_else (message err) "Failed to fetch analysis")))
              (emit (ConsoleError "Analysis error:") w)
        end in
      with_view (setLoading (Loading.set_analysis false)) w1
  end.

(** The interval callback once its request has settled; the [catch]
    block is empty. *)
Definition resume_refresh (o : Outcome) (w : World) : World :=
  match getTicker o with
  | inr tickerData => with_view (setTicker tickerData) w
  | inl _ => w
  end.

(** The interval callback up to its [await]. *)
Definition refresh (symbol : string) (w : World) : World :=
  issue (getTicker_request symbol) (InRefresh symbol) w.

(** First render: the three effects run in the order they are declared. *)
Definition mount (w : World) : World :=
  let w1 := fetchSymbols w in
  let w2 := fetchData (selectedSymbol (view w1)) (chartTimeframe (view w1)) w1 in
  start_interval (selectedSymbol (view w2)) w2.

(** [handleSymbolChange(symbol)], then the render it causes: when
    [selectedSymbol] has changed, [fetchData] is a new closure, so the
    effect that calls it runs again, and the interval effect is cleaned
    up and runs again (cleanups first, then the effects in order). *)
Definition handleSymbolChange (symbol : string) (w : World) : World :=
  let changed := negb (String.eqb symbol (selectedSymbol (view w))) in
  let w1 :=
    with_view (setTicker VNull)
      (with_view (setAnalysis VNull)
         (with_view (setSelectedSymbol symbol) w)) in
  if changed then
    let w2 := run_cleanup w1 in
    let w3 := fetchData (selectedSymbol (view w2)) (chartTimeframe (view w2)) w2 in
    start_interval (selectedSymbol (view w3)) w3
  else w1.

(** [handleTimeframeChange(tf)], then the render it causes. *)
Definition handleTimeframeChange (tf : string) (w : World) : World :=
  let changed := negb (String.eqb tf (chartTimeframe (view w))) in
  let w1 := with_view (setChartTimeframe tf) w in
  if changed
  then fetchData (selectedSymbol (view w1)) (chartTimeframe (view w1)) w1
  else w1.

(** [onClick={fetchData}] on the Refresh button. *)
Definition handleRefresh (w : World) : World :=
  fetchData (selectedSymbol (view w)) (chartTimeframe (view w)) w.

Inductive Event : Type :=
| Mount
| SelectSymbol (symbol : string)
| SelectTimeframe (tf : string)
| ClickRefresh
| IntervalFires (id : nat)
| Settles (call : nat) (o : Outcome)
| Elapse (ms : nat).

(** One turn of the event loop. A timer that is not active or a request
    that is not pending cannot fire: such an event changes nothing. *)
Definition step (w : World) (ev : Event) : World :=
  match ev with
  | Mount => mount w
  | SelectSymbol symbol => handleSymbolChange symbol w
  | SelectTimeframe tf => handleTimeframeChange tf w
  | ClickRefresh => handleRefresh w
  | IntervalFires id =>
      match List.find (fun iv => Nat.eqb (iv_id iv) id) (intervals w) with
      | Some iv => refresh (iv_symbol iv) w
      | None => w
      end
  | Settles id o =>
      match calls w !! id with
      | Some {| request := _; continuation := Some k |} =>
          let w' := with_calls (settle id) w in
          match k with
          | InFetchSymbols => resume_fetchSymbols o w'
          | InFetchData symbol timeframe at_ => resume_fetchData symbol timeframe at_ o w'
          | InRefresh _ => resume_refresh o w'
          end
      | _ => w
      end
  | Elapse ms => elapse ms w
  end.

Definition run (w : World) (evs : list Event) : World := fold_left step evs w.

(** Before the first render. *)
Definition boot : World :=
  {| view := initial; calls := []; intervals := []; next_timer := 0;
     cleanup := None; now := 0; log := [] |}.

(** *** Reading the world *)

(** The requests issued so far, in order. *)
Definition issued (w : World) : list Request := map request (calls w).

(** The (symbol, timeframe) pair on display. *)
Definition displayed (w : World) : string * string :=
  (selectedSymbol (view w), chartTimeframe (view w)).

(** The (symbol, timeframe) pair a pending [fetchData] request was made for. *)
Definition generation_of (w : World) (id : nat) : option (string * string) :=
  match calls w !! id with
  | Some {| request := _; continuation := Some (InFetchData symbol timeframe _) |} =>
      Some (symbol, timeframe)
  | _ => None
  end.

(** Every pending request is the one its continuation was suspended on:
    the requests of a [fetchData] in progress are made for the symbol and
    the timeframe of its closure. *)
Definition made_for (c : Call) : Prop :=
  match continuation c with
  | Some InFetchSymbols => request c = getSymbols_request "binance"
  | Some (InFetchData symbol timeframe AwaitTicker) => request c = getTicker_request symbol
  | Some (InFetchData symbol timeframe AwaitOHLCV) =>
      request c = getOHLCV_request symbol timeframe
  | Some (InFetchData symbol _ AwaitAnalysis) => request c = getFullAnalysis_request symbol
  | Some (InRefresh symbol) => request c = getTicker_request symbol
  | None => True
  end.


(** Payloads for the examples. *)
Definition btc_ticker : value :=
  VObject [("symbol", VString "BTC/USDT"); ("last", VNumber "100")].
Definition btc_ticker_101 : value :=
  VObject [("symbol", VString "BTC/USDT"); ("last", VNumber "101")].
Definition bars : value :=
  VObject [("data", VArray [VObject [("timestamp", VNumber "1700000000000");
                                      ("close", VNumber "100")]])].
Definition full_analysis : value :=
  VObject [("symbol", VString "BTC/USDT"); ("confidence", VString "High")].
Definition upstream_down : value := VObject [("message", VString "upstream down")].

End App.

(** ** The whole REST surface of [api/client.ts] *)

Module Rest.
Import Js Api.

(** A parameter with a default value: [None] is an omitted argument. *)
Definition or_default {A : Type} (arg : option A) (d : A) : A :=
  match arg with
  | Some x => x
  | None => d
  end.

(** [marketApi.getSymbols(exchange = 'binance')] *)
Definition getSymbols (exchange : option string) : App.Request :=
  {| App.url := "/market/symbols/" ++ or_default exchange "binance"; App.params := [] |}.

(** [marketApi.getTicker(symbol, exchange = 'binance')] *)
Definition getTicker (symbol : string) (exchange : option string) : App.Request :=
  {| App.url := "/market/ticker/" ++ formatSymbol symbol;
     App.params := [("exchange", VString (or_default exchange "binance"))] |}.

(** [marketApi.getOHLCV(symbol, timeframe = '1h', exchange = 'binance', limit = 500)] *)
Definition getOHLCV (symbol : string) (timeframe exchange limit : option string) : App.Request :=
  {| App.url := "/market/ohlcv/" ++ formatSymbol symbol;
     App.params := [("timeframe", VString (or_default timeframe "1h"));
                    ("exchange", VString (or_default exchange "binance"));
                    ("limit", VNumber (or_default limit "500"))] |}.

(** [marketApi.getOrderBook(symbol, exchange = 'binance', limit = 50)] *)
Definition getOrderBook (symbol : string) (exchange limit : option string) : App.Request :=
  {| App.url := "/market/orderbook/" ++ formatSymbol symbol;
     App.params := [("exchange", VString (or_default exchange "binance"));
                    ("limit", VNumber (or_default limit "50"))] |}.

(** [analysisApi.getFullAnalysis(symbol, exchange = 'binance')] *)
Definition getFullAnalysis (symbol : string) (exchange : option string) : App.Request :=
  {| App.url := "/analysis/full/" ++ formatSymbol symbol;
     App.params := [("exchange", VString (or_default exchange "binance"))] |}.

(** [analysisApi.getIndicators(symbol, timeframe = '1h', exchange = 'binance')] *)
Definition getIndicators (symbol : string) (timeframe exchange : option string) : App.Request :=
  {| App.url := "/analysis/indicators/" ++ formatSymbol symbol;
     App.params := [("timeframe", VString (or_default timeframe "1h"));
                    ("exchange", VString (or_default exchange "binance"))] |}.

(** [analysisApi.getStructure(symbol, timeframe = '1h', exchange = 'binance')] *)
Definition getStructure (symbol : string) (timeframe exchange : option string) : App.Request :=
  {| App.url := "/analysis/structure/" ++ formatSymbol symbol;
     App.params := [("timeframe", VString (or_default timeframe "1h"));
                    ("exchange", VString (or_default exchange "binance"))] |}.

(** [analysisApi.getFibonacci(symbol, timeframe = '4h', exchange = 'binance')] *)
Definition getFibonacci (symbol : string) (timeframe exchange : option string) : App.Request :=
  {| App.url := "/analysis/fibonacci/" ++ formatSymbol symbol;
     App.params := [("timeframe", VString (or_default timeframe "4h"));
                    ("exchange", VString (or_default exchange "binance"))] |}.

(** The seven requests that name a symbol, with whatever options. *)
Definition symbol_requests (symbol : string) (timeframe exchange limit : option string)
  : list App.Request :=
  [getTicker symbol exchange; getOHLCV symbol timeframe exchange limit;
   getOrderBook symbol exchange limit; getFullAnalysis symbol exchange;
   getIndicators symbol timeframe exchange; getStructure symbol timeframe exchange;
   getFibonacci symbol timeframe exchange].

End Rest.

(** ** The push client over its whole life *)

Module Lifetime.
Import Js TickerWebSocket.

(** The address every socket of an instance is opened on. *)
Definition wsUrl (host sym : string) : string :=
  "ws://" ++ host ++ "/ws/ticker/" ++ replace "/" "-" sym.

(** An effect an instance for [sym] on [host] may have: sockets go to
    its one address, reconnections wait 3000 ms. *)
Definition expected (host sym : string) (e : Effect) : Prop :=
  match e with
  | NewWebSocket u => u = wsUrl host sym
  | SetTimeout d => d = 3000
  | _ => True
  end.

(** What holds of an instance created for [sym] on [host], whatever has
    happened to it since. *)
Record consistent (host sym : string) (w : World) : Prop := {
  c_symbol : symbol (this w) = sym;
  c_host : location_host w = host;
  c_max : maxReconnectAttempts (this w) = 5;
  c_budget : reconnectAttempts (this w) <= 5;
  c_delays : scheduled_delays w = repeat 3000 (reconnectAttempts (this w));
  c_effects : Forall (expected host sym) (effects w);
  c_timers : Forall (fun d => d = 3000) (timers w);
  c_sockets : sockets_created w = length (sockets w);
  c_ws : forall i, ws (this w) = Some i -> S i = length (sockets w)
}.

(** Events of the network that are not a close: the channel opens, a
    message arrives, an error is reported. *)
Definition is_quiet (ev : Event) : bool :=
  match ev with
  | SockOpen _ | SockMessage _ _ | SockError _ => true
  | _ => false
  end.

End Lifetime.

(** ** What [App] renders from its state *)

Module AppView.
Import Js App.

(** [const isLoading = loading.analysis || loading.ticker], which
    disables the Refresh button. *)
Definition isLoading (s : State) : bool :=
  Loading.analysis (loading s) || Loading.ticker (loading s).

(** [{error && (...)}]: the banner is there for a non-empty message. *)
Definition error_banner (s : State) : bool :=
  match error s with
  | Some (String _ _) => true
  | _ => false
  end.

(** The two states agree on everything but the loading flags. *)
Definition same_data (s s' : State) : Prop :=
  symbols s' = symbols s
  /\ selectedSymbol s' = selectedSymbol s
  /\ chartTimeframe s' = chartTimeframe s
  /\ ticker s' = ticker s
  /\ ohlcv s' = ohlcv s
  /\ analysis s' = analysis s
  /\ error s' = error s
  /\ lastUpdate s' = lastUpdate s.

(** A request of the symbols, the ticker, the bars or the refresher
    whose call threw with outcome [o]. *)
Definition failed (k : Continuation) (o : Outcome) : Prop :=
  match k with
  | InFetchSymbols => exists e, getSymbols o = inl e
  | InFetchData _ _ AwaitTicker => exists e, getTicker o = inl e
  | InFetchData _ _ AwaitOHLCV => exists e, getOHLCV o = inl e
  | InFetchData _ _ AwaitAnalysis => False
  | InRefresh _ => exists e, getTicker o = inl e
  end.

(** This event is the rejection of an analysis request. *)
Definition analysis_fails (w : World) (ev : Event) : bool :=
  match ev with
  | Settles id o =>
      match calls w !! id with
      | Some {| request := _; continuation := Some (InFetchData _ _ AwaitAnalysis) |} =>
          match getFullAnalysis o with
          | inl _ => true
          | inr _ => false
          end
      | _ => false
      end
  | _ => false
  end.

(** No analysis request is rejected in the course of these events. *)
Fixpoint no_analysis_failure (w : World) (evs : list Event) : bool :=
  match evs with
  | [] => true
  | ev :: rest => negb (analysis_fails w ev) && no_analysis_failure (step w ev) rest
  end.

Definition Await_eqb (a b : Await) : bool :=
  match a, b with
  | AwaitTicker, AwaitTicker | AwaitOHLCV, AwaitOHLCV | AwaitAnalysis, AwaitAnalysis => true
  | _, _ => false
  end.

(** The continuation is a [fetchData] suspended at [at_]. *)
Definition awaits (at_ : Await) (k : Continuation) : bool :=
  match k with
  | InFetchData _ _ a => Await_eqb a at_
  | _ => false
  end.

(** The continuation is [fetchSymbols]. *)
Definition awaits_symbols (k : Continuation) : bool :=
  match k with
  | InFetchSymbols => true
  | _ => false
  end.

(** Some request is pending whose continuation satisfies [p]. *)
Definition pending (p : Continuation -> bool) (w : World) : Prop :=
  exists id req k,
    calls w !! id = Some {| request := req; continuation := Some k |} /\ p k = true.

(** A loading flag that is up has a pending request of its kind. *)
Definition flags_pending (w : World) : Prop :=
  (Loading.symbols (loading (view w)) = true -> pending awaits_symbols w)
  /\ (Loading.ticker (loading (view w)) = true -> pending (awaits AwaitTicker) w)
  /\ (Loading.chart (loading (view w)) = true -> pending (awaits AwaitOHLCV) w)
  /\ (Loading.analysis (loading (view w)) = true -> pending (awaits AwaitAnalysis) w).

(** Events that change the selection. *)
Definition is_selection (ev : Event) : bool :=
  match ev with
  | SelectSymbol _ | SelectTimeframe _ => true
  | _ => false
  end.

End AppView.

(** ** The symbol picker: [SymbolSelector], which calls [handleSymbolChange] *)

Module SymbolSelector.
Import Js.

(** [const POPULAR_SYMBOLS = [...]] *)
Definition POPULAR_SYMBOLS : list string :=
  ["BTC/USDT"; "ETH/USDT"; "SOL/USDT"; "XRP/USDT"; "DOGE/USDT"; "ADA/USDT"].

(** [s.includes(t)] on strings *)
Fixpoint includes (s t : string) : bool :=
  match strip_prefix t s with
  | Some _ => true
  | None =>
      match s with
      | EmptyString => false
      | String _ rest => includes rest t
      end
  end.

(** [prev.includes(symbol)] on an array of strings *)
Definition array_includes (l : list string) (x : string) : bool :=
  existsb (String.eqb x) l.

(** [toggleFavorite(symbol)], as the update of [favorites]:
    [prev.includes(symbol) ? prev.filter(s => s !== symbol) : [...prev, symbol]] *)
Definition toggleFavorite (symbol : string) (prev : list string) : list string :=
  if array_includes prev symbol
  then List.filter (fun s => negb (String.eqb s symbol)) prev
  else (prev ++ [symbol])%list.

(** [selected.replace('/USDT', '')] *)
Definition displaySymbol (selected : string) : string := replace "/USDT" EmptyString selected.

Section Search.

(** [String.prototype.toLowerCase], the engine's. *)
Variable toLowerCase : string -> string.

(** [symbols.filter(s => s.toLowerCase().includes(search.toLowerCase()))] *)
Definition filteredSymbols (symbols : list string) (search : string) : list string :=
  List.filter (fun s => includes (toLowerCase s) (toLowerCase search)) symbols.

(** [filteredSymbols.slice(0, 50)], the rows of the list. *)
Definition rows (symbols : list string) (search : string) : list string :=
  firstn 50 (filteredSymbols symbols search).

End Search.

(** Lower case for ASCII letters, to run the search on examples. *)
Definition ascii_lower (c : ascii) : ascii :=
  let n := nat_of_ascii c in
  if ((65 <=? n) && (n <=? 90))%nat then ascii_of_nat (n + 32) else c.

Fixpoint ascii_toLowerCase (s : string) : string :=
  match s with
  | EmptyString => EmptyString
  | String c rest => String (ascii_lower c) (ascii_toLowerCase rest)
  end.

End SymbolSelector.

Import Js Api.

Example formatSymbol_btc : formatSymbol "BTC/USDT" = "BTC-USDT".
Proof. reflexivity. Qed.

Example formatSymbol_first_only : formatSymbol "A/B/C" = "A-B/C".
Proof. reflexivity. Qed.

Example parse_envelope :
  Json.parse (Json.dq "{'type':'ticker','data':{'symbol':'BTC/USDT','last':100.5}}")
  = Some (VObject [("type", VString "ticker");
                   ("data", VObject [("symbol", VString "BTC/USDT"); ("last", VNumber "100.5")])]).
Proof. vm_compute. reflexivity. Qed.

Example parse_garbage : Json.parse "not json" = None.
Proof. vm_compute. reflexivity. Qed.

Example parse_null : Json.parse " null " = Some VNull.
Proof. vm_compute. reflexivity. Qed.

Example parse_array : Json.parse "[1, [true, -2e5], []]" = Some (VArray [VNumber "1"; VArray [VBool true; VNumber "-2e5"]; VArray []]).
Proof. vm_compute. reflexivity. Qed.

Example parse_trailing : Json.parse "{} x" = None.
Proof. vm_compute. reflexivity. Qed.

(** * Properties *)

(** ** The symbol path transform *)

Section SymbolPath.

Lemma replace_char_cons (p : ascii) (rep : string) (c : ascii) (rest : string) :
  replace (String p EmptyString) rep (String c rest)
  = if Ascii.eqb p c then rep ++ rest
    else String c (replace (String p EmptyString) rep rest).
Proof. cbn [replace strip_prefix]. destruct (Ascii.eqb p c); reflexivity. Qed.

Lemma unformatSymbolAll_no_dash (s : string) :
  count_char "-" s = 0 -> unformatSymbolAll s = s.
Proof.
  induction s as [|c rest IH]; cbn [count_char unformatSymbolAll]; intros H.
  - reflexivity.
  - destruct (Ascii.eqb c "-"); [discriminate H|].
    rewrite IH by exact H. reflexivity.
Qed.

Lemma formatSymbol_no_slash (s : string) :
  count_char "/" s = 0 -> formatSymbol s = s.
Proof.
  unfold formatSymbol.
  induction s as [|c rest IH]; intros H.
  - reflexivity.
  - rewrite replace_char_cons. cbn [count_char] in H.
    rewrite Ascii.eqb_sym. destruct (Ascii.eqb c "/"); [discriminate H|].
    rewrite IH by exact H. reflexivity.
Qed.

(** The transform replaces the first slash only: a second one stays. *)
Example formatSymbol_two_slashes : formatSymbol "BTC/USDT/X" = "BTC-USDT/X".
Proof. reflexivity. Qed.

(** C8, as the code has it: a symbol with exactly one slash and no dash
    comes back unchanged from the path segment, whether the way back
    replaces the first dash or every dash. *)
Theorem formatSymbol_roundtrip (s : string) :
  count_char "/" s = 1 ->
  count_char "-" s = 0 ->
  unformatSymbol (formatSymbol s) = s /\ unformatSymbolAll (formatSymbol s) = s.
Proof.
  unfold formatSymbol, unformatSymbol.
  induction s as [|c rest IH]; intros Hslash Hdash.
  - discriminate Hslash.
  - cbn [count_char] in Hslash, Hdash.
    rewrite replace_char_cons. rewrite Ascii.eqb_sym.
    destruct (Ascii.eqb c "/") eqn:Hc.
    + apply Ascii.eqb_eq in Hc. subst c. cbn in Hdash.
      split.
      * reflexivity.
      * cbn. rewrite unformatSymbolAll_no_dash by exact Hdash. reflexivity.
    + rewrite replace_char_cons. rewrite Ascii.eqb_sym.
      destruct (Ascii.eqb c "-") eqn:Hd; [discriminate Hdash|].
      destruct (IH Hslash Hdash) as [IH1 IH2].
      split.
      * rewrite IH1. reflexivity.
      * cbn [unformatSymbolAll]. rewrite Hd, IH2. reflexivity.
Qed.

Lemma formatSymbol_roundtrip_witness :
  unformatSymbol (formatSymbol "ETH/USDT") = "ETH/USDT"
  /\ unformatSymbolAll (formatSymbol "ETH/USDT") = "ETH/USDT".
Proof. apply (formatSymbol_roundtrip "ETH/USDT"); reflexivity. Defined.

(** C8, as stated, fails for a symbol with one slash and a dash before
    it: the dash is taken for the slash on the way back. Two symbols with
    one slash each even share a path segment, so no way back can exist. *)
Lemma formatSymbol_roundtrip_dash :
  count_char "/" "A-B/USDT" = 1
  /\ formatSymbol "A-B/USDT" = "A-B-USDT"
  /\ unformatSymbol (formatSymbol "A-B/USDT") = "A/B-USDT"
  /\ unformatSymbol (formatSymbol "A-B/USDT") <> "A-B/USDT"
  /\ unformatSymbolAll (formatSymbol "A-B/USDT") <> "A-B/USDT"
  /\ count_char "/" "A/B-USDT" = 1
  /\ formatSymbol "A/B-USDT" = formatSymbol "A-B/USDT".
Proof. repeat split; try reflexivity; intros H; discriminate H. Qed.

End SymbolPath.

(** ** The push client *)

Section PushClient.
Import TickerWebSocket.

Variable JSON_parse : string -> option value.

Abbreviation step := (TickerWebSocket.step JSON_parse).
Abbreviation run := (TickerWebSocket.run JSON_parse).
Abbreviation onmessage := (TickerWebSocket.onmessage JSON_parse).

Lemma run_app (w : World) (evs1 evs2 : list Event) :
  run w (evs1 ++ evs2)%list = run (run w evs1) evs2.
Proof. unfold TickerWebSocket.run. apply fold_left_app. Qed.

Lemma run_cons (w : World) (ev : Event) (evs : list Event) :
  run w (ev :: evs) = run (step w ev) evs.
Proof. reflexivity. Qed.

(** *** Messages *)

Lemma emit_neq (e : Effect) (w : World) : emit e w <> w.
Proof.
  intros H. apply (f_equal effects) in H. cbn in H.
  apply (f_equal (@length Effect)) in H. rewrite length_app in H. cbn in H. lia.
Qed.

Lemma strict_eq_string_spec (v : value) (s : string) :
  strict_eq_string v s = true <-> v = VString s.
Proof.
  destruct v; cbn; try (split; [discriminate | intros H; discriminate H]).
  rewrite String.eqb_eq. split; [intros ->; reflexivity | intros H; injection H; auto].
Qed.

(** C7: a parsed envelope with a [type] and a [data] member reaches
    [onMessage], with its [data], exactly when its [type] is the string
    [ticker]; any other type leaves the world as it was, and no
    exception is raised either way. *)
Theorem onmessage_dispatch (w : World) (payload : string)
    (fields : list (string * value)) (type data : value) :
  JSON_parse payload = Some (VObject fields) ->
  lookup_field "type" fields = Some type ->
  lookup_field "data" fields = Some data ->
  (type = VString "ticker" <-> onmessage payload w = inr (emit (OnMessage data) w))
  /\ (type <> VString "ticker" -> onmessage payload w = inr w)
  /\ (exists w', onmessage payload w = inr w')
  /\ (forall sock, sockets w !! sock = Some OPEN ->
      step w (SockMessage sock payload)
      = if strict_eq_string type "ticker" then emit (OnMessage data) w else w).
Proof.
  intros Hparse Htype Hdata.
  assert (Hh : onmessage payload w
               = inr (if strict_eq_string type "ticker"
                      then emit (OnMessage data) w else w)).
  { unfold TickerWebSocket.onmessage. rewrite Hparse. cbn [get_prop].
    rewrite Htype, Hdata. destruct (strict_eq_string type "ticker"); reflexivity. }
  assert (Hstep : forall sock, sockets w !! sock = Some OPEN ->
            step w (SockMessage sock payload)
            = if strict_eq_string type "ticker" then emit (OnMessage data) w else w).
  { intros sock Hopen. cbn [TickerWebSocket.step]. rewrite Hopen, Hh. reflexivity. }
  rewrite Hh.
  destruct (strict_eq_string type "ticker") eqn:Heq.
  - apply strict_eq_string_spec in Heq. subst type.
    split; [split; auto|]. split; [intros H; contradiction H; reflexivity|].
    split; [eauto|exact Hstep].
  - assert (Hne : type <> VString "ticker").
    { intros H. apply strict_eq_string_spec in H. congruence. }
    split; [split|split; [|split]].
    + intros H. contradiction.
    + intros H. injection H as H. symmetry in H. apply emit_neq in H. contradiction.
    + reflexivity.
    + eauto.
    + exact Hstep.
Qed.

(** *** The retry counter *)

Lemma onmessage_this (payload : string) (w w' : World) :
  onmessage payload w = inr w' ->
  this w' = this w /\ sockets w' = sockets w /\ timers w' = timers w
  /\ scheduled_delays w' = scheduled_delays w
  /\ sockets_created w' = sockets_created w.
Proof.
  unfold TickerWebSocket.onmessage.
  destruct (JSON_parse payload) as [data|]; [|discriminate].
  destruct (get_prop data "type") as [e|type]; [discriminate|].
  destruct (strict_eq_string type "ticker").
  - destruct (get_prop data "data") as [e|d]; [discriminate|].
    intros [= <-]. unfold scheduled_delays, sockets_created. cbn.
    rewrite flat_map_app, List.filter_app. cbn. rewrite !app_nil_r. auto.
  - intros [= <-]. auto.
Qed.

Ltac count_effects :=
  unfold scheduled_delays, sockets_created in *; cbn;
  rewrite ?flat_map_app, ?List.filter_app, ?length_app; cbn;
  rewrite ?app_nil_r; repeat split; try lia.

Lemma onclose_facts (w : World) :
  maxReconnectAttempts (this (onclose w)) = maxReconnectAttempts (this w)
  /\ reconnectAttempts (this w) <= reconnectAttempts (this (onclose w))
  /\ (maxReconnectAttempts (this w) <= reconnectAttempts (this w) -> onclose w = w).
Proof.
  unfold onclose.
  destruct (Nat.ltb_spec (reconnectAttempts (this w)) (maxReconnectAttempts (this w)));
    cbn; repeat split; try lia.
Qed.

(** What one turn can do to the counter, the timers and the sockets. *)
Lemma step_facts (w : World) (ev : Event) :
  maxReconnectAttempts (this (step w ev)) = maxReconnectAttempts (this w)
  /\ reconnectAttempts (this w) <= reconnectAttempts (this (step w ev))
  /\ (maxReconnectAttempts (this w) <= reconnectAttempts (this w) ->
      reconnectAttempts (this (step w ev)) = reconnectAttempts (this w)
      /\ scheduled_delays (step w ev) = scheduled_delays w
      /\ sockets_created (step w ev) + length (timers (step w ev))
         <= sockets_created w + length (timers w) + (if is_CallConnect ev then 1 else 0)).
Proof.
  destruct ev as [| |sock|sock payload|sock|sock|k]; cbn [TickerWebSocket.step is_CallConnect].
  - unfold connect. count_effects.
  - unfold disconnect. destruct (ws (this w)) as [sock|]; count_effects.
  - destruct (sockets w !! sock) as [[]|]; count_effects.
  - destruct (sockets w !! sock) as [[]|]; try solve [count_effects].
    destruct (onmessage payload w) as [e|w'] eqn:Hmsg.
    + count_effects.
    + apply onmessage_this in Hmsg. destruct Hmsg as (-> & _ & -> & -> & ->).
      repeat split; lia.
  - unfold onerror. destruct (sockets w !! sock) as [[]|]; count_effects.
  - destruct (sockets w !! sock) as [[]|]; try solve [count_effects];
      match goal with
      | |- context [onclose ?w0] =>
          destruct (onclose_facts w0) as (Hmax & Hle & Hsame); cbn in Hmax, Hle, Hsame;
          rewrite Hmax; split; [reflexivity|]; split; [exact Hle|];
          intros Hex; rewrite (Hsame Hex); count_effects
      end.
  - destruct (timers w !! k) as [d|] eqn:Hk; [|count_effects].
    pose proof (length_delete (timers w) k (ex_intro _ d Hk)) as Hlen.
    apply lookup_lt_Some in Hk.
    unfold connect. count_effects.
Qed.

Lemma run_facts (evs : list Event) (w : World) :
  maxReconnectAttempts (this (run w evs)) = maxReconnectAttempts (this w)
  /\ reconnectAttempts (this w) <= reconnectAttempts (this (run w evs))
  /\ (maxReconnectAttempts (this w) <= reconnectAttempts (this w) ->
      reconnectAttempts (this (run w evs)) = reconnectAttempts (this w)
      /\ scheduled_delays (run w evs) = scheduled_delays w
      /\ sockets_created (run w evs) + length (timers (run w evs))
         <= sockets_created w + length (timers w) + explicit_connects evs).
Proof.
  revert w. induction evs as [|ev evs IH]; intros w.
  - cbn. repeat split; lia.
  - rewrite run_cons.
    destruct (step_facts w ev) as (Hmax & Hle & Hex).
    destruct (IH (step w ev)) as (Hmax' & Hle' & Hex').
    split; [congruence|]. split; [lia|].
    intros Hfull. destruct (Hex Hfull) as (Ha & Hd & Hs).
    destruct Hex' as (Ha' & Hd' & Hs'); [lia|].
    split; [congruence|]. split; [congruence|].
    unfold explicit_connects in *. cbn [List.filter].
    destruct (is_CallConnect ev); cbn [length]; lia.
Qed.

(** C10: the retry counter never goes down, whatever happens to the
    instance; [connect()] and [disconnect()] leave it alone; and once it
    has reached the budget, it stays there, no reconnection is ever
    scheduled again, and every socket created from then on comes from a
    [connect()] of the owner or from a timeout that was already pending. *)
Theorem reconnectAttempts_never_reset (w : World) (evs : list Event) :
  reconnectAttempts (this w) <= reconnectAttempts (this (run w evs))
  /\ reconnectAttempts (this (connect w)) = reconnectAttempts (this w)
  /\ reconnectAttempts (this (disconnect w)) = reconnectAttempts (this w)
  /\ (maxReconnectAttempts (this w) <= reconnectAttempts (this w) ->
      reconnectAttempts (this (run w evs)) = reconnectAttempts (this w)
      /\ scheduled_delays (run w evs) = scheduled_delays w
      /\ sockets_created (run w evs) + length (timers (run w evs))
         <= sockets_created w + length (timers w) + explicit_connects evs).
Proof.
  destruct (run_facts evs w) as (_ & Hle & Hex).
  split; [exact Hle|]. split; [reflexivity|]. split; [|exact Hex].
  unfold disconnect. destruct (ws (this w)); reflexivity.
Qed.

(** *** Payloads that are not JSON *)

(** C6, as the code has it: a payload that [JSON.parse] rejects makes
    the message handler throw; the exception leaves the handler, the
    instance, the sockets and the timers are as before (the retry counter
    with them), and neither [onMessage] nor [onError] is called. *)
Theorem onmessage_malformed (w : World) (sock : nat) (payload : string) :
  JSON_parse payload = None ->
  onmessage payload w = inl SyntaxError
  /\ this (step w (SockMessage sock payload)) = this w
  /\ sockets (step w (SockMessage sock payload)) = sockets w
  /\ timers (step w (SockMessage sock payload)) = timers w
  /\ callbacks (step w (SockMessage sock payload)) = callbacks w
  /\ (sockets w !! sock = Some OPEN ->
      effects (step w (SockMessage sock payload)) = (effects w ++ [Uncaught SyntaxError])%list).
Proof.
  intros Hparse.
  assert (Hh : onmessage payload w = inl SyntaxError).
  { unfold TickerWebSocket.onmessage. rewrite Hparse. reflexivity. }
  split; [exact Hh|].
  cbn [TickerWebSocket.step]. rewrite Hh.
  destruct (sockets w !! sock) as [[]|]; unfold callbacks; cbn;
    rewrite ?List.filter_app, ?app_nil_r; repeat split; try reflexivity;
    intros H; discriminate H.
Qed.

(** *** Reconnection *)

Lemma failures_S (n : nat) :
  failures (S n) = (failures n ++ [SockClose n; TimerFires 0])%list.
Proof.
  unfold failures. rewrite seq_S, flat_map_app. cbn. reflexivity.
Qed.

Lemma connect_retrying (host sym : string) : retrying 0 (connect (boot host sym)).
Proof. unfold retrying. cbn. repeat split; reflexivity. Qed.

Ltac open_world w :=
  destruct w as [[ws0 sym0 att0 max0] host0 socks0 tms0 effs0];
  unfold retrying, given_up, scheduled_delays, sockets_created in *; cbn in *.

(** One more failure while the budget lasts: the close handler counts it
    and schedules [connect()] in 3000 ms, which opens the next socket. *)
Lemma failure_round (k : nat) (w : World) :
  k < 5 -> retrying k w -> retrying (S k) (run w [SockClose k; TimerFires 0]).
Proof.
  intros Hk Hw. open_world w.
  destruct Hw as (-> & -> & -> & -> & -> & Hd & Hc).
  do 5 (destruct k as [|k];
        [cbn; rewrite !flat_map_app, !List.filter_app, !length_app, Hd, Hc; cbn;
         repeat split; reflexivity|]).
  lia.
Qed.

(** The sixth failure finds the budget used up: nothing is scheduled. *)
Lemma failure_last (w : World) :
  retrying 5 w -> given_up (run w [SockClose 5; TimerFires 0]).
Proof.
  intros Hw. open_world w.
  destruct Hw as (-> & -> & -> & -> & -> & Hd & Hc).
  cbn. rewrite Hd, Hc. repeat split; reflexivity.
Qed.

Lemma failure_ignored (k : nat) (w : World) :
  6 <= k -> given_up w -> run w [SockClose k; TimerFires 0] = w.
Proof.
  intros Hk Hw. open_world w.
  destruct Hw as (-> & -> & -> & -> & -> & Hd & Hc).
  do 6 (destruct k as [|k]; [lia|]). reflexivity.
Qed.

Lemma failures_retrying (host sym : string) (n : nat) :
  n <= 5 -> retrying n (run (boot host sym) (CallConnect :: failures n)).
Proof.
  induction n as [|n IH]; intros Hn.
  - apply connect_retrying.
  - rewrite failures_S, app_comm_cons, run_app.
    apply failure_round; [lia|]. apply IH. lia.
Qed.

Lemma failures_given_up (host sym : string) (n : nat) :
  5 < n -> given_up (run (boot host sym) (CallConnect :: failures n)).
Proof.
  induction n as [|n IH]; intros Hn; [lia|].
  rewrite failures_S, app_comm_cons, run_app.
  destruct (Nat.eq_dec n 5) as [->|Hne].
  - apply failure_last. apply failures_retrying. lia.
  - assert (Hgu : given_up (run (boot host sym) (CallConnect :: failures n)))
      by (apply IH; lia).
    rewrite failure_ignored; [exact Hgu|lia|exact Hgu].
Qed.

Lemma retrying_state (k : nat) (w : World) :
  retrying k w -> connection_state w = Connecting.
Proof.
  intros (_ & _ & Hws & Hs & Ht & _). unfold connection_state.
  rewrite Ht, Hws, Hs.
  rewrite (list_lookup_middle (repeat CLOSED k) [] CONNECTING k); [reflexivity|].
  symmetry. apply repeat_length.
Qed.

Lemma given_up_state (w : World) :
  given_up w -> connection_state w = ClosedPermanent.
Proof.
  intros (Ha & Hm & Hws & Hs & Ht & _). unfold connection_state.
  rewrite Ht, Hws, Hs, Ha, Hm. reflexivity.
Qed.

(** C5, as the code has it: after [n] failed connections in a row the
    client has made one reconnection per failure, five at most, each
    scheduled 3000 ms ahead with the counter incremented first; it is
    connecting again after each of the first five failures and is closed
    for good from the sixth on. *)
Theorem consecutive_failures (host sym : string) (n : nat) :
  let w := run (boot host sym) (CallConnect :: failures n) in
  reconnectAttempts (this w) = Nat.min n 5
  /\ scheduled_delays w = repeat 3000 (Nat.min n 5)
  /\ sockets_created w = S (Nat.min n 5)
  /\ timers w = []
  /\ connection_state w = (if n <=? 5 then Connecting else ClosedPermanent)%nat.
Proof.
  intros w. subst w.
  destruct (Nat.leb_spec n 5) as [Hn|Hn].
  - pose proof (failures_retrying host sym n Hn) as Hr.
    rewrite (retrying_state _ _ Hr).
    destruct Hr as (Ha & _ & _ & _ & Ht & Hd & Hc).
    rewrite Nat.min_l by exact Hn. auto.
  - pose proof (failures_given_up host sym n Hn) as Hg.
    rewrite (given_up_state _ Hg).
    destruct Hg as (Ha & _ & _ & _ & Ht & Hd & Hc).
    rewrite Nat.min_r by lia. auto.
Qed.

End PushClient.

(** *** The push client on concrete runs *)

Section PushClientRuns.
Import TickerWebSocket.

(** The close handler does not look at [this.ws]: a socket closed by
    [disconnect()] is counted and retried like one the network dropped. *)
Lemma disconnect_close_schedules (parse : string -> option value) (w : World) (sock : nat) :
  ws (this w) = Some sock ->
  sockets w !! sock = Some OPEN ->
  reconnectAttempts (this w) < maxReconnectAttempts (this w) ->
  let w' := run parse w [CallDisconnect; SockClose sock] in
  ws (this w') = None
  /\ reconnectAttempts (this w') = S (reconnectAttempts (this w))
  /\ timers w' = (timers w ++ [3000])%list.
Proof.
  intros Hws Hopen Hlt. apply Nat.ltb_lt in Hlt.
  unfold TickerWebSocket.run. cbn [fold_left TickerWebSocket.step].
  unfold disconnect. rewrite Hws.
  cbn [sockets with_this with_sockets emit]. unfold ws_close. rewrite Hopen.
  rewrite list_lookup_insert_eq by (eapply lookup_lt_Some; exact Hopen).
  unfold onclose.
  cbn [this with_this with_sockets emit set_ws reconnectAttempts maxReconnectAttempts].
  rewrite Hlt. cbn. auto.
Qed.

Lemma ws_close_length (sock : nat) (l : list ReadyState) :
  length (ws_close sock l) = length l.
Proof.
  unfold ws_close. destruct (l !! sock) as [[]|]; rewrite ?length_insert; reflexivity.
Qed.

(** C2 on the code, in both of its cases. While the channel is open and
    budget is left, [disconnect()] followed by the close event of the
    socket it closed schedules a reconnection, and when that timeout
    fires a new socket is created. While a reconnection is pending,
    [disconnect()] does not cancel it: the timeout fires and a new socket
    is created. Either way the client is connecting again. *)
Theorem disconnect_then_reconnects (parse : string -> option value) (w : World) (sock : nat) :
  ws (this w) = Some sock ->
  (sockets w !! sock = Some OPEN ->
   reconnectAttempts (this w) < maxReconnectAttempts (this w) ->
   timers w = [] ->
   let w' := run parse w [CallDisconnect; SockClose sock; TimerFires 0] in
   scheduled_delays w' = (scheduled_delays w ++ [3000])%list
   /\ sockets_created w' = S (sockets_created w)
   /\ ws (this w') = Some (length (sockets w))
   /\ connection_state w' = Connecting)
  /\ (forall d, timers w = [d] ->
      let w' := run parse w [CallDisconnect; TimerFires 0] in
      scheduled_delays w' = scheduled_delays w
      /\ sockets_created w' = S (sockets_created w)
      /\ ws (this w') = Some (length (sockets w))
      /\ connection_state w' = Connecting).
Proof.
  intros Hws. split.
  - intros Hopen Hlt Ht. apply Nat.ltb_lt in Hlt.
    unfold TickerWebSocket.run. cbn [fold_left TickerWebSocket.step].
    unfold disconnect. rewrite Hws.
    cbn [sockets with_this with_sockets emit]. unfold ws_close. rewrite Hopen.
    rewrite list_lookup_insert_eq by (eapply lookup_lt_Some; exact Hopen).
    unfold onclose.
    cbn [this with_this with_sockets emit set_ws reconnectAttempts maxReconnectAttempts].
    rewrite Hlt.
    cbn [timers with_timers with_this emit with_sockets]. rewrite Ht.
    cbn [app lookup list_lookup].
    unfold connect, scheduled_delays, sockets_created, connection_state. cbn.
    rewrite !flat_map_app, !List.filter_app, !length_app, !length_insert. cbn.
    rewrite ?Hopen, ?Ht. cbn [app]. rewrite !app_nil_r, !length_insert.
    split; [reflexivity|]. split; [lia|]. split; [reflexivity|].
    cbn [delete list_delete].
    rewrite (list_lookup_middle (<[sock:=CLOSED]> (<[sock:=CLOSING]> (sockets w))) []
               CONNECTING (length (sockets w))) by (rewrite !length_insert; reflexivity).
    reflexivity.
  - intros d Ht.
    unfold TickerWebSocket.run. cbn [fold_left TickerWebSocket.step].
    unfold disconnect. rewrite Hws.
    cbn [timers with_timers with_this emit with_sockets]. rewrite Ht.
    cbn [lookup list_lookup].
    unfold connect, scheduled_delays, sockets_created, connection_state. cbn.
    rewrite !flat_map_app, !List.filter_app, !length_app. cbn.
    rewrite ?Ht. cbn [app delete list_delete]. rewrite !app_nil_r, ws_close_length.
    split; [reflexivity|]. split; [lia|]. split; [reflexivity|].
    rewrite (list_lookup_middle (ws_close sock (sockets w)) [] CONNECTING
               (length (sockets w))) by (rewrite ws_close_length; reflexivity).
    reflexivity.
Qed.

(** The two runs from a fresh client: the owner connects, the channel
    opens, the owner disconnects, and three seconds after the close event
    a second socket exists; or the channel drops, the owner disconnects
    while the reconnection is pending, and the second socket comes all
    the same. *)
Example disconnect_runs :
  let w := run Json.parse fresh
             [CallConnect; SockOpen 0; CallDisconnect; SockClose 0; TimerFires 0] in
  let w2 := run Json.parse fresh
              [CallConnect; SockClose 0; CallDisconnect; TimerFires 0] in
  (effects w = [NewWebSocket url; WsClose 0; SetTimeout 3000; NewWebSocket url]
   /\ sockets w = [CLOSED; CONNECTING]
   /\ ws (this w) = Some 1)
  /\ (effects w2 = [NewWebSocket url; SetTimeout 3000; WsClose 0; NewWebSocket url]
      /\ sockets w2 = [CLOSED; CONNECTING]
      /\ ws (this w2) = Some 1).
Proof. vm_compute. repeat split; reflexivity. Qed.

Lemma disconnect_then_reconnects_witness :
  let w := run Json.parse fresh [CallConnect; SockOpen 0] in
  let w' := run Json.parse w [CallDisconnect; SockClose 0; TimerFires 0] in
  sockets_created w' = S (sockets_created w) /\ connection_state w' = Connecting.
Proof.
  intros w w'.
  destruct (disconnect_then_reconnects Json.parse w 0 eq_refl) as [Hopen _].
  assert (Hlt : reconnectAttempts (this w) < maxReconnectAttempts (this w))
    by (vm_compute; lia).
  destruct (Hopen eq_refl Hlt eq_refl) as (_ & Hcreated & _ & Hstate).
  split; [exact Hcreated|exact Hstate].
Defined.

(** C5, as stated, fails for a run of one failure: one reconnection is
    made, not five, and the client is connecting, not closed for good. *)
Lemma one_failure_one_reconnect :
  let w := run Json.parse fresh (CallConnect :: failures 1) in
  scheduled_delays w = [3000]
  /\ sockets_created w = 2
  /\ reconnectAttempts (this w) = 1
  /\ connection_state w = Connecting
  /\ connection_state w <> ClosedPermanent.
Proof. vm_compute. repeat split; try reflexivity. intros H; discriminate H. Qed.

(** After five failures the fifth reconnection is under way; only a sixth
    failure closes the client for good. *)
Example five_failures_still_connecting :
  connection_state (run Json.parse fresh (CallConnect :: failures 5)) = Connecting
  /\ connection_state (run Json.parse fresh (CallConnect :: failures 6)) = ClosedPermanent.
Proof. vm_compute. split; reflexivity. Qed.

(** C6, as stated, fails on a payload that is not JSON: the handler
    throws, and the error callback is not called. *)
Lemma malformed_payload_not_reported :
  let w := run Json.parse fresh [CallConnect; SockOpen 0] in
  Json.parse "not json" = None
  /\ onmessage Json.parse "not json" w = inl SyntaxError
  /\ effects (step Json.parse w (SockMessage 0 "not json"))
     = [NewWebSocket url; Uncaught SyntaxError]
  /\ callbacks (step Json.parse w (SockMessage 0 "not json")) = [].
Proof. vm_compute. repeat split; reflexivity. Qed.

(** A payload that parses to [null] throws as well, on [data.type]. *)
Example null_payload_throws :
  onmessage Json.parse "null" fresh = inl TypeError.
Proof. vm_compute. reflexivity. Qed.

Lemma onmessage_malformed_witness :
  callbacks (step Json.parse (run Json.parse fresh [CallConnect; SockOpen 0]) (SockMessage 0 "{oops"))
  = callbacks (run Json.parse fresh [CallConnect; SockOpen 0]).
Proof.
  apply (onmessage_malformed Json.parse
           (run Json.parse fresh [CallConnect; SockOpen 0]) 0 "{oops").
  vm_compute. reflexivity.
Defined.

(** The scenario of the design document: a trade message changes nothing. *)
Lemma onmessage_dispatch_witness :
  onmessage Json.parse (Json.dq "{'type':'trade','data':{'price':1}}") fresh = inr fresh.
Proof.
  apply (onmessage_dispatch Json.parse fresh
           (Json.dq "{'type':'trade','data':{'price':1}}")
           [("type", VString "trade"); ("data", VObject [("price", VNumber "1")])]
           (VString "trade") (VObject [("price", VNumber "1")])).
  - vm_compute. reflexivity.
  - reflexivity.
  - reflexivity.
  - intros H. discriminate H.
Defined.

Example ticker_message_delivered :
  effects (run Json.parse fresh
             [CallConnect; SockOpen 0;
              SockMessage 0 (Json.dq "{'type':'ticker','data':{'last':101}}")])
  = [NewWebSocket url; OnMessage (VObject [("last", VNumber "101")])].
Proof. vm_compute. reflexivity. Qed.

(** A client that has given up: a later [connect()] whose socket closes
    is not retried. *)
Lemma reconnectAttempts_never_reset_witness :
  let w := run Json.parse fresh (CallConnect :: failures 6) in
  let evs := [CallConnect; SockOpen 6; SockClose 6; TimerFires 0] in
  scheduled_delays (run Json.parse w evs) = scheduled_delays w.
Proof.
  apply (reconnectAttempts_never_reset Json.parse
           (run Json.parse fresh (CallConnect :: failures 6))
           [CallConnect; SockOpen 6; SockClose 6; TimerFires 0]).
  vm_compute. lia.
Defined.

End PushClientRuns.

(** ** The dashboard *)

Section Dashboard.
Import App AppView.

Lemma app_run_cons (w : World) (ev : Event) (evs : list Event) :
  run w (ev :: evs) = run (step w ev) evs.
Proof. reflexivity. Qed.

(** *** Requests and their continuations *)

Lemma settle_length (id : nat) (l : list Call) : length (settle id l) = length l.
Proof. unfold settle. destruct (l !! id); [apply length_insert|reflexivity]. Qed.

Lemma settle_requests (id : nat) (l : list Call) :
  map request (settle id l) = map request l.
Proof.
  unfold settle. destruct (l !! id) as [c|] eqn:Hc; [|reflexivity].
  revert id Hc. induction l as [|c0 l IH]; intros [|id] Hc; try discriminate Hc.
  - cbn in Hc. injection Hc as ->. reflexivity.
  - cbn in Hc |- *. f_equal. apply IH. exact Hc.
Qed.

Lemma settle_lookup_ne (id j : nat) (l : list Call) :
  id <> j -> settle id l !! j = l !! j.
Proof.
  intros Hne. unfold settle. destruct (l !! id); [|reflexivity].
  apply list_lookup_insert_ne. exact Hne.
Qed.

Lemma lookup_new_call (l : list Call) (c : Call) : (l ++ [c])%list !! length l = Some c.
Proof. apply (list_lookup_middle l [] c). reflexivity. Qed.

(** A pending request that settles runs its continuation. *)
Lemma step_Settles (w : World) (id : nat) (req : Request) (k : Continuation) (o : Outcome) :
  calls w !! id = Some {| request := req; continuation := Some k |} ->
  step w (Settles id o)
  = match k with
    | InFetchSymbols => resume_fetchSymbols o (with_calls (settle id) w)
    | InFetchData symbol timeframe at_ =>
        resume_fetchData symbol timeframe at_ o (with_calls (settle id) w)
    | InRefresh _ => resume_refresh o (with_calls (settle id) w)
    end.
Proof. intros H. cbn [step]. rewrite H. reflexivity. Qed.

(** The calls after [fetchData] has moved from one [await] on. *)
Lemma calls_resume_fetchData (sym tf : string) (at_ : Await) (o : Outcome) (w : World) :
  calls (resume_fetchData sym tf at_ o w)
  = match at_ with
    | AwaitTicker =>
        (calls w ++ [{| request := getOHLCV_request sym tf;
                        continuation := Some (InFetchData sym tf AwaitOHLCV) |}])%list
    | AwaitOHLCV =>
        (calls w ++ [{| request := getFullAnalysis_request sym;
                        continuation := Some (InFetchData sym tf AwaitAnalysis) |}])%list
    | AwaitAnalysis => calls w
    end.
Proof.
  destruct at_; unfold resume_fetchData.
  - destruct (getTicker o); reflexivity.
  - destruct (getOHLCV o); reflexivity.
  - destruct (getFullAnalysis o); reflexivity.
Qed.

Lemma issued_app (w : World) (l : list Call) :
  map request (calls w ++ l)%list = (issued w ++ map request l)%list.
Proof. unfold issued. apply map_app. Qed.

Lemma issued_Settles_fetchData (w : World) (id : nat) (req : Request)
    (sym tf : string) (at_ : Await) (o : Outcome) :
  calls w !! id = Some {| request := req; continuation := Some (InFetchData sym tf at_) |} ->
  issued (step w (Settles id o))
  = (issued w ++ match at_ with
                 | AwaitTicker => [getOHLCV_request sym tf]
                 | AwaitOHLCV => [getFullAnalysis_request sym]
                 | AwaitAnalysis => []
                 end)%list.
Proof.
  intros Hcall. rewrite (step_Settles _ _ _ _ _ Hcall).
  unfold issued. rewrite calls_resume_fetchData. cbn [calls with_calls].
  destruct at_; rewrite ?map_app, settle_requests; cbn; rewrite ?app_nil_r; reflexivity.
Qed.

Lemma settle_made_for (id : nat) (l : list Call) :
  Forall made_for l -> Forall made_for (settle id l).
Proof.
  intros Hl. unfold settle. destruct (l !! id); [|exact Hl].
  apply Forall_insert; [exact Hl|]. exact I.
Qed.

(** Each request is made for the closure that waits for it. *)
Lemma step_made_for (w : World) (ev : Event) :
  Forall made_for (calls w) -> Forall made_for (calls (step w ev)).
Proof.
  intros Hw.
  assert (Hnew : forall (l : list Call) (c : Call),
             Forall made_for l -> made_for c -> Forall made_for (l ++ [c])%list).
  { intros l c Hl Hc. apply Forall_app. split; [exact Hl|]. constructor; [exact Hc|constructor]. }
  destruct ev as [|s|tf| |iid|id o|ms]; cbn [step].
  - cbn. rewrite <- app_assoc. apply Forall_app. split; [exact Hw|].
    repeat constructor.
  - unfold handleSymbolChange.
    destruct (negb (s =? selectedSymbol (view w))%string); [|exact Hw].
    unfold run_cleanup. cbn. destruct (cleanup w); cbn; apply Hnew; auto; reflexivity.
  - unfold handleTimeframeChange.
    destruct (negb (tf =? chartTimeframe (view w))%string); [|exact Hw].
    cbn. apply Hnew; auto; reflexivity.
  - cbn. apply Hnew; auto; reflexivity.
  - destruct (find _ _); [|exact Hw]. cbn. apply Hnew; auto; reflexivity.
  - destruct (calls w !! id) as [[r [k|]]|] eqn:Hcall; try exact Hw.
    pose proof (settle_made_for id _ Hw) as Hs.
    destruct k as [|sym tf at_|sym].
    + unfold resume_fetchSymbols. destruct (getSymbols o); exact Hs.
    + rewrite calls_resume_fetchData. destruct at_; cbn [calls with_calls];
        [apply Hnew; auto; reflexivity | apply Hnew; auto; reflexivity | exact Hs].
    + unfold resume_refresh. destruct (getTicker o); exact Hs.
  - exact Hw.
Qed.

Lemma run_made_for (evs : list Event) (w : World) :
  Forall made_for (calls w) -> Forall made_for (calls (run w evs)).
Proof.
  revert w. induction evs as [|ev evs IH]; intros w Hw; [exact Hw|].
  rewrite app_run_cons. apply IH. apply step_made_for. exact Hw.
Qed.

(** The first request of a trigger is made for what is displayed. *)
Lemma fetchData_generation (w : World) :
  generation_of (handleRefresh w) (length (calls w)) = Some (displayed w).
Proof.
  unfold generation_of, handleRefresh, fetchData, issue. cbn [calls with_calls with_view].
  rewrite lookup_new_call. reflexivity.
Qed.

(** *** The order of the three fetches *)


(** *** Late responses *)

Lemma view_resume_fetchData (sym tf : string) (at_ : Await) (o : Outcome) (w : World) :
  selectedSymbol (view (resume_fetchData sym tf at_ o w)) = selectedSymbol (view w)
  /\ chartTimeframe (view (resume_fetchData sym tf at_ o w)) = chartTimeframe (view w).
Proof.
  destruct at_; unfold resume_fetchData.
  - destruct (getTicker o); split; reflexivity.
  - destruct (getOHLCV o); split; reflexivity.
  - destruct (getFullAnalysis o); split; reflexivity.
Qed.

(** C1, as the code has it: a request of [fetchData] is made for the
    symbol and timeframe of the closure that issues it, and when its
    response arrives it is stored, whatever is displayed by then; the
    run then goes on to its next request, again for its own symbol and
    timeframe. Nothing compares the two generations. *)
Theorem response_applied_whatever_is_displayed (evs : list Event) (id : nat) (req : Request)
    (sym tf : string) (at_ : Await) (o : Outcome) :
  let w := run boot evs in
  calls w !! id = Some {| request := req; continuation := Some (InFetchData sym tf at_) |} ->
  generation_of w id = Some (sym, tf)
  /\ req = match at_ with
           | AwaitTicker => getTicker_request sym
           | AwaitOHLCV => getOHLCV_request sym tf
           | AwaitAnalysis => getFullAnalysis_request sym
           end
  /\ displayed (step w (Settles id o)) = displayed w
  /\ match at_ with
     | AwaitTicker =>
         forall data, getTicker o = inr data -> ticker (view (step w (Settles id o))) = data
     | AwaitOHLCV =>
         forall data, getOHLCV o = inr data -> ohlcv (view (step w (Settles id o))) = data
     | AwaitAnalysis =>
         forall data, getFullAnalysis o = inr data ->
                      analysis (view (step w (Settles id o))) = data
     end
  /\ issued (step w (Settles id o))
     = (issued w ++ match at_ with
                    | AwaitTicker => [getOHLCV_request sym tf]
                    | AwaitOHLCV => [getFullAnalysis_request sym]
                    | AwaitAnalysis => []
                    end)%list.
Proof.
  intros w Hcall.
  split; [unfold generation_of; rewrite Hcall; reflexivity|].
  split.
  { assert (Hall : Forall made_for (calls w)) by (apply run_made_for; constructor).
    rewrite Forall_lookup in Hall. specialize (Hall _ _ Hcall).
    unfold made_for in Hall. cbn in Hall. destruct at_; exact Hall. }
  split.
  { rewrite (step_Settles _ _ _ _ _ Hcall). unfold displayed.
    destruct (view_resume_fetchData sym tf at_ o (with_calls (settle id) w)) as [-> ->].
    reflexivity. }
  split.
  - rewrite (step_Settles _ _ _ _ _ Hcall).
    destruct at_; intros data Hdata; unfold resume_fetchData; rewrite Hdata; reflexivity.
  - apply (issued_Settles_fetchData w id req sym tf at_ o). exact Hcall.
Qed.

(** *** The analysis error *)

(** A [fetchData] in progress, from one [await] to the next. *)
Lemma fetchData_stage (w : World) (id : nat) (req : Request) (sym tf : string)
    (at_ : Await) (o : Outcome) :
  calls w !! id = Some {| request := req; continuation := Some (InFetchData sym tf at_) |} ->
  match at_ with
  | AwaitTicker =>
      calls (step w (Settles id o)) !! length (calls w)
      = Some {| request := getOHLCV_request sym tf;
                continuation := Some (InFetchData sym tf AwaitOHLCV) |}
      /\ length (calls (step w (Settles id o))) = S (length (calls w))
      /\ error (view (step w (Settles id o))) = error (view w)
  | AwaitOHLCV =>
      calls (step w (Settles id o)) !! length (calls w)
      = Some {| request := getFullAnalysis_request sym;
                continuation := Some (InFetchData sym tf AwaitAnalysis) |}
      /\ length (calls (step w (Settles id o))) = S (length (calls w))
      /\ error (view (step w (Settles id o))) = error (view w)
  | AwaitAnalysis =>
      forall data, getFullAnalysis o = inr data ->
        error (view (step w (Settles id o))) = error (view w)
        /\ analysis (view (step w (Settles id o))) = data
  end.
Proof.
  intros Hcall. rewrite (step_Settles _ _ _ _ _ Hcall).
  destruct at_.
  - rewrite calls_resume_fetchData. cbn [calls with_calls].
    rewrite <- (settle_length id (calls w)) at 1.
    rewrite lookup_new_call, length_app, settle_length. cbn [length].
    split; [reflexivity|]. split; [lia|].
    unfold resume_fetchData. destruct (getTicker o); reflexivity.
  - rewrite calls_resume_fetchData. cbn [calls with_calls].
    rewrite <- (settle_length id (calls w)) at 1.
    rewrite lookup_new_call, length_app, settle_length. cbn [length].
    split; [reflexivity|]. split; [lia|].
    unfold resume_fetchData. destruct (getOHLCV o); reflexivity.
  - intros data Hdata. unfold resume_fetchData. rewrite Hdata. split; reflexivity.
Qed.

(** A whole [fetchData] whose analysis request succeeds: the error is
    cleared at the start and stays cleared, the analysis is stored. *)
Lemma fetchData_success (w : World) (o1 o2 o3 : Outcome) (data : value) :
  getFullAnalysis o3 = inr data ->
  let n := length (calls w) in
  let w' := run (step w ClickRefresh) [Settles n o1; Settles (S n) o2; Settles (S (S n)) o3] in
  error (view w') = None /\ analysis (view w') = data.
Proof.
  intros Hdata n w'. subst w'.
  set (sym := selectedSymbol (view w)). set (tf := chartTimeframe (view w)).
  set (w0 := step w ClickRefresh).
  assert (H0 : calls w0 !! n
               = Some {| request := getTicker_request sym;
                         continuation := Some (InFetchData sym tf AwaitTicker) |}
               /\ length (calls w0) = S n /\ error (view w0) = None).
  { subst w0 n. cbn. rewrite lookup_new_call, length_app. cbn. repeat split; lia. }
  destruct H0 as (Hc0 & Hl0 & He0).
  rewrite app_run_cons.
  pose proof (fetchData_stage w0 n _ sym tf AwaitTicker o1 Hc0) as (Hc1 & Hl1 & He1).
  rewrite Hl0 in Hc1, Hl1.
  set (w1 := step w0 (Settles n o1)) in *.
  rewrite app_run_cons.
  pose proof (fetchData_stage w1 (S n) _ sym tf AwaitOHLCV o2 Hc1) as (Hc2 & Hl2 & He2).
  rewrite Hl1 in Hc2, Hl2.
  set (w2 := step w1 (Settles (S n) o2)) in *.
  rewrite app_run_cons.
  pose proof (fetchData_stage w2 (S (S n)) _ sym tf AwaitAnalysis o3 Hc2 data Hdata)
    as (He3 & Ha3).
  cbn [run fold_left]. split; [congruence|exact Ha3].
Qed.

Lemma step_error_cases (w : World) (ev : Event) :
  analysis_fails w ev = false ->
  error (view (step w ev)) = error (view w) \/ error (view (step w ev)) = None.
Proof.
  intros Hok.
  destruct ev as [|s|tf| |iid|id o|ms]; cbn [step].
  - right. reflexivity.
  - unfold handleSymbolChange.
    destruct (negb (s =? selectedSymbol (view w))%string); [right|left]; [|reflexivity].
    unfold run_cleanup. destruct (cleanup w); reflexivity.
  - unfold handleTimeframeChange.
    destruct (negb (tf =? chartTimeframe (view w))%string); [right|left]; reflexivity.
  - right. reflexivity.
  - left. destruct (find _ _); reflexivity.
  - left. cbn [analysis_fails] in Hok.
    destruct (calls w !! id) as [[r [k|]]|]; try reflexivity.
    destruct k as [|sym tf [| |]|sym].
    + unfold resume_fetchSymbols. destruct (getSymbols o); reflexivity.
    + unfold resume_fetchData. destruct (getTicker o); reflexivity.
    + unfold resume_fetchData. destruct (getOHLCV o); reflexivity.
    + unfold resume_fetchData. destruct (getFullAnalysis o); [discriminate Hok|reflexivity].
    + unfold resume_refresh. destruct (getTicker o); reflexivity.
  - left. reflexivity.
Qed.

(** Once cleared, the error stays cleared until an analysis request
    is rejected. *)
Lemma run_error_none (evs : list Event) (w : World) :
  error (view w) = None ->
  no_analysis_failure w evs = true ->
  error (view (run w evs)) = None.
Proof.
  revert w. induction evs as [|ev evs IH]; intros w Hnone Hok; [exact Hnone|].
  cbn [no_analysis_failure] in Hok. apply andb_true_iff in Hok. destruct Hok as [Hev Hevs].
  apply negb_true_iff in Hev.
  rewrite app_run_cons. apply IH; [|exact Hevs].
  destruct (step_error_cases w ev Hev) as [H|H]; congruence.
Qed.

(** Every trigger clears the error at once. *)
Lemma trigger_clears_error (w : World) (s tf : string) :
  error (view (step w ClickRefresh)) = None
  /\ error (view (step w Mount)) = None
  /\ (s <> selectedSymbol (view w) -> error (view (step w (SelectSymbol s))) = None)
  /\ (tf <> chartTimeframe (view w) -> error (view (step w (SelectTimeframe tf))) = None).
Proof.
  split; [reflexivity|]. split; [reflexivity|]. split.
  - intros Hne. cbn [step]. unfold handleSymbolChange.
    apply String.eqb_neq in Hne. rewrite Hne. cbn [negb].
    unfold run_cleanup. destruct (cleanup w); reflexivity.
  - intros Hne. cbn [step]. unfold handleTimeframeChange.
    apply String.eqb_neq in Hne. rewrite Hne. reflexivity.
Qed.

(** C3, as the code has it: a failed analysis request stores the message
    of the error object it was rejected with, or the fixed text when that
    message is empty; for an HTTP error response this is the text of the
    transport library, whatever the body says. The error is cleared when
    a fetch starts, by any trigger, and then stays cleared until an
    analysis request is rejected, whatever else happens; an analysis
    response that succeeds stores the analysis and leaves the error field
    as it is. So a fetch started after the failure clears the error and,
    when its analysis request succeeds, stores the analysis. *)
Theorem analysis_failure_message (w : World) (id : nat) (req : Request) (sym tf : string)
    (o : Outcome) (err : AxiosError) :
  calls w !! id
  = Some {| request := req; continuation := Some (InFetchData sym tf AwaitAnalysis) |} ->
  getFullAnalysis o = inl err ->
  let w1 := step w (Settles id o) in
  error (view w1) = Some (or_else (message err) "Failed to fetch analysis")
  /\ (forall status body, o = Http status body ->
      error (view w1) = Some ("Request failed with status code " ++ show_nat status))
  /\ (forall o1 o2 o3 data, getFullAnalysis o3 = inr data ->
      let n := length (calls w1) in
      let w2 := run (step w1 ClickRefresh)
                  [Settles n o1; Settles (S n) o2; Settles (S (S n)) o3] in
      error (view w2) = None /\ analysis (view w2) = data)
  /\ (forall w' s' tf',
      error (view (step w' ClickRefresh)) = None
      /\ error (view (step w' Mount)) = None
      /\ (s' <> selectedSymbol (view w') -> error (view (step w' (SelectSymbol s'))) = None)
      /\ (tf' <> chartTimeframe (view w') ->
          error (view (step w' (SelectTimeframe tf'))) = None))
  /\ (forall w' evs, error (view w') = None -> no_analysis_failure w' evs = true ->
      error (view (run w' evs)) = None)
  /\ (forall w' id' req' sym' tf' o' data,
      calls w' !! id'
      = Some {| request := req'; continuation := Some (InFetchData sym' tf' AwaitAnalysis) |} ->
      getFullAnalysis o' = inr data ->
      analysis (view (step w' (Settles id' o'))) = data
      /\ error (view (step w' (Settles id' o'))) = error (view w'))
  /\ (forall w' evs id' req' sym' tf' o' data,
      error (view w') = None ->
      no_analysis_failure w' evs = true ->
      calls (run w' evs) !! id'
      = Some {| request := req'; continuation := Some (InFetchData sym' tf' AwaitAnalysis) |} ->
      getFullAnalysis o' = inr data ->
      analysis (view (step (run w' evs) (Settles id' o'))) = data
      /\ error (view (step (run w' evs) (Settles id' o'))) = None).
Proof.
  intros Hcall Herr w1.
  assert (H1 : error (view w1) = Some (or_else (message err) "Failed to fetch analysis")).
  { subst w1. rewrite (step_Settles _ _ _ _ _ Hcall).
    unfold resume_fetchData. rewrite Herr. reflexivity. }
  split; [exact H1|]. split; [|split; [|split; [|split; [|split]]]].
  - intros status body ->. rewrite H1.
    unfold getFullAnalysis, api_get in Herr.
    destruct ((200 <=? status) && (status <? 300))%nat; [discriminate Herr|].
    injection Herr as <-. reflexivity.
  - intros o1 o2 o3 data Hdata. apply fetchData_success. exact Hdata.
  - intros w' s' tf'. apply trigger_clears_error.
  - intros w' evs. apply run_error_none.
  - intros w' id' req' sym' tf' o' data Hcall' Hdata.
    destruct (fetchData_stage w' id' req' sym' tf' AwaitAnalysis o' Hcall' data Hdata)
      as [He Ha].
    split; [exact Ha|exact He].
  - intros w' evs id' req' sym' tf' o' data Hnone Hok Hcall' Hdata.
    destruct (fetchData_stage _ id' req' sym' tf' AwaitAnalysis o' Hcall' data Hdata)
      as [He Ha].
    split; [exact Ha|]. rewrite He. apply run_error_none; assumption.
Qed.

(** *** The periodic refresher *)





End Dashboard.

(** *** The dashboard on concrete runs *)

Section DashboardRuns.
Import App.

(** Request 0 asks for the symbols, request 1 for the BTC/USDT ticker;
    after the switch to ETH/USDT request 2 asks for the new ticker. *)
Example requests_after_switch :
  issued (run boot [Mount; SelectSymbol "ETH/USDT"])
  = [getSymbols_request "binance"; getTicker_request "BTC/USDT"; getTicker_request "ETH/USDT"].
Proof. vm_compute. reflexivity. Qed.

(** C1, as stated, fails: the ticker response for BTC/USDT that arrives
    after the switch to ETH/USDT is stored, and the run it belongs to
    goes on to request the bars of BTC/USDT. *)
Lemma late_response_overwrites :
  let w := run boot [Mount; SelectSymbol "ETH/USDT"] in
  let w' := step w (Settles 1 (Http 200 btc_ticker)) in
  generation_of w 1 = Some ("BTC/USDT", "1h")
  /\ displayed w = ("ETH/USDT", "1h")
  /\ ticker (view w) = VNull
  /\ displayed w' = ("ETH/USDT", "1h")
  /\ ticker (view w') = btc_ticker
  /\ view w' <> view w
  /\ issued w' = (issued w ++ [getOHLCV_request "BTC/USDT" "1h"])%list.
Proof.
  vm_compute. repeat split; try reflexivity. intros H. discriminate H.
Qed.

Lemma response_applied_whatever_is_displayed_witness :
  ticker (view (step (run boot [Mount; SelectSymbol "ETH/USDT"])
                     (Settles 1 (Http 200 btc_ticker))))
  = btc_ticker.
Proof.
  destruct (response_applied_whatever_is_displayed
              [Mount; SelectSymbol "ETH/USDT"] 1 (getTicker_request "BTC/USDT")
              "BTC/USDT" "1h" AwaitTicker (Http 200 btc_ticker))
    as (_ & _ & _ & Happlied & _).
  - vm_compute. reflexivity.
  - apply Happlied. reflexivity.
Defined.



(** C3, as stated, fails on the scenario of the design document: the
    body of the 500 response is not read, the text on display is the
    transport library's. *)
Lemma http_500_message :
  let w := run boot [Mount; Settles 1 (Http 200 btc_ticker); Settles 2 (Http 200 bars);
                     Settles 3 (Http 500 upstream_down)] in
  error (view w) = Some "Request failed with status code 500"
  /\ error (view w) <> Some "upstream down".
Proof. vm_compute. split; [reflexivity|]. intros H. discriminate H. Qed.

(** A run that was in progress when another run's analysis failed: its
    analysis arrives and is stored, and the banner of the failure stays
    beside it. *)
Example banner_beside_new_analysis :
  let w := run boot [Mount; Settles 1 (Http 200 btc_ticker); Settles 2 (Http 200 bars);
                     ClickRefresh; Settles 4 (Http 200 btc_ticker); Settles 5 (Http 200 bars);
                     Settles 6 (Http 500 upstream_down);
                     Settles 3 (Http 200 full_analysis)] in
  analysis (view w) = full_analysis
  /\ error (view w) = Some "Request failed with status code 500".
Proof. vm_compute. split; reflexivity. Qed.

(** An error object without a message gives the fixed text. *)
Example empty_message_literal :
  or_else (message {| message := EmptyString; response := None |}) "Failed to fetch analysis"
  = "Failed to fetch analysis".
Proof. reflexivity. Qed.

Lemma analysis_failure_message_witness :
  error (view (step (run boot [Mount; Settles 1 (Http 200 btc_ticker); Settles 2 (Http 200 bars)])
                    (Settles 3 (Http 500 upstream_down))))
  = Some "Request failed with status code 500".
Proof.
  destruct (analysis_failure_message
              (run boot [Mount; Settles 1 (Http 200 btc_ticker); Settles 2 (Http 200 bars)])
              3 (getFullAnalysis_request "BTC/USDT") "BTC/USDT" "1h"
              (Http 500 upstream_down)
              {| message := "Request failed with status code 500";
                 response := Some (500, upstream_down) |})
    as (Hmsg & _ & _).
  - vm_compute. reflexivity.
  - vm_compute. reflexivity.
  - exact Hmsg.
Defined.

(** The manual refresh after the failure: the banner goes, the analysis
    is there. *)
Example refresh_after_failure :
  let w := run boot [Mount; Settles 1 (Http 200 btc_ticker); Settles 2 (Http 200 bars);
                     Settles 3 (Http 500 upstream_down);
                     ClickRefresh; Settles 4 (Http 200 btc_ticker); Settles 5 (Http 200 bars);
                     Elapse 250; Settles 6 (Http 200 full_analysis)] in
  error (view w) = None
  /\ analysis (view w) = full_analysis
  /\ lastUpdate (view w) = Some 250
  /\ Loading.analysis (loading (view w)) = false.
Proof. vm_compute. repeat split; reflexivity. Qed.

(** The first ticker says 100; five seconds later the refresher's
    request says 101, and that is what is on display. *)
Example refresh_replaces_ticker :
  let w := run boot [Mount; Settles 1 (Http 200 btc_ticker); Elapse 5000; IntervalFires 0;
                     Settles 3 (Http 200 btc_ticker_101)] in
  ticker (view w) = btc_ticker_101.
Proof. vm_compute. reflexivity. Qed.

(** A refresh that fails leaves the view alone. *)
Example refresh_failure_silent :
  let w := run boot [Mount; Settles 1 (Http 200 btc_ticker); IntervalFires 0] in
  view (step w (Settles 3 Timeout)) = view w
  /\ log (step w (Settles 3 Timeout)) = log w.
Proof. vm_compute. split; reflexivity. Qed.


(** The timers of that run: the first one is cleared before the second
    one is set. *)
Example interval_restarted :
  let w := run boot [Mount; SelectSymbol "ETH/USDT"] in
  log w = [SetInterval 0 5000; ClearInterval 0; SetInterval 1 5000]
  /\ intervals w = [{| iv_id := 1; iv_delay := 5000; iv_symbol := "ETH/USDT" |}].
Proof. vm_compute. split; reflexivity. Qed.

End DashboardRuns.

(** ** More on the REST paths *)

Section RestPaths.
Import Rest.

Lemma count_char_app (c : ascii) (a b : string) :
  count_char c (a ++ b) = count_char c a + count_char c b.
Proof.
  induction a as [|x a IH]; cbn [String.append count_char]; [reflexivity|].
  rewrite IH. lia.
Qed.

Lemma formatSymbol_split (a b : string) :
  count_char "/" a = 0 -> formatSymbol (a ++ String "/" b) = a ++ String "-" b.
Proof.
  unfold formatSymbol.
  induction a as [|c rest IH]; intros Ha; [reflexivity|].
  cbn [count_char] in Ha. cbn [String.append].
  rewrite replace_char_cons, Ascii.eqb_sym.
  destruct (Ascii.eqb c "/"); [discriminate Ha|].
  rewrite IH by exact Ha. reflexivity.
Qed.

(** What replacing one slash does to the length and to the counts. *)
Lemma formatSymbol_counts (s : string) :
  String.length (formatSymbol s) = String.length s
  /\ count_char "/" (formatSymbol s) = Nat.pred (count_char "/" s)
  /\ count_char "-" (formatSymbol s)
     = count_char "-" s + (if count_char "/" s =? 0 then 0 else 1)%nat
  /\ (count_char "/" s = 0 -> formatSymbol s = s).
Proof.
  unfold formatSymbol.
  induction s as [|c rest (IHlen & IHslash & IHdash & IHsame)].
  - repeat split; reflexivity.
  - rewrite replace_char_cons, Ascii.eqb_sym. cbn [count_char].
    destruct (Ascii.eqb c "/") eqn:Hc.
    + apply Ascii.eqb_eq in Hc. subst c. cbn.
      repeat split; lia.
    + cbn [String.length count_char]. rewrite Hc, IHlen, IHslash, IHdash.
      cbn [Nat.add].
      split; [reflexivity|]. split; [reflexivity|]. split; [lia|].
      intros H. rewrite IHsame by exact H. reflexivity.
Qed.

(** [formatSymbol] replaces the first slash by a dash and leaves every
    other character where it is: a symbol read as a slash-free part, a
    slash and a rest becomes the same part, a dash and the same rest. So
    the length stays, one slash goes, one dash comes; without a slash
    the symbol is returned as it is. *)
Theorem formatSymbol_first_slash (s a b : string) :
  String.length (formatSymbol s) = String.length s
  /\ count_char "/" (formatSymbol s) = Nat.pred (count_char "/" s)
  /\ count_char "-" (formatSymbol s)
     = count_char "-" s + (if count_char "/" s =? 0 then 0 else 1)%nat
  /\ (count_char "/" s = 0 -> formatSymbol s = s)
  /\ (count_char "/" a = 0 -> formatSymbol (a ++ String "/" b) = a ++ String "-" b).
Proof.
  destruct (formatSymbol_counts s) as (Hlen & Hslash & Hdash & Hsame).
  split; [exact Hlen|]. split; [exact Hslash|]. split; [exact Hdash|].
  split; [exact Hsame|]. apply formatSymbol_split.
Qed.

Lemma formatSymbol_roundtrip_dashfree (s : string) :
  count_char "-" s = 0 -> replace "-" "/" (formatSymbol s) = s.
Proof.
  unfold formatSymbol.
  induction s as [|c rest IH]; intros Hdash; [reflexivity|].
  cbn [count_char] in Hdash.
  rewrite replace_char_cons, Ascii.eqb_sym.
  destruct (Ascii.eqb c "/") eqn:Hc.
  - apply Ascii.eqb_eq in Hc. subst c. reflexivity.
  - rewrite replace_char_cons, Ascii.eqb_sym.
    destruct (Ascii.eqb c "-"); [discriminate Hdash|].
    rewrite IH by exact Hdash. reflexivity.
Qed.

Lemma append_inj_l (p a b : string) : p ++ a = p ++ b -> a = b.
Proof.
  induction p as [|c p IH]; cbn [String.append]; intros H; [exact H|].
  injection H as H. apply IH. exact H.
Qed.

(** Two symbols without a dash that get the same path segment are the
    same symbol: no two such symbols share a ticker, OHLCV or analysis
    address, nor a push channel address. *)
Theorem formatSymbol_injective (s1 s2 : string) :
  count_char "-" s1 = 0 ->
  count_char "-" s2 = 0 ->
  (formatSymbol s1 = formatSymbol s2 -> s1 = s2)
  /\ (forall ex1 ex2, App.url (getTicker s1 ex1) = App.url (getTicker s2 ex2) -> s1 = s2)
  /\ (forall ex1 ex2,
       App.url (getFullAnalysis s1 ex1) = App.url (getFullAnalysis s2 ex2) -> s1 = s2)
  /\ (forall tf1 tf2 ex1 ex2 l1 l2,
       App.url (getOHLCV s1 tf1 ex1 l1) = App.url (getOHLCV s2 tf2 ex2 l2) -> s1 = s2)
  /\ (forall host, Lifetime.wsUrl host s1 = Lifetime.wsUrl host s2 -> s1 = s2).
Proof.
  intros H1 H2.
  assert (Hseg : formatSymbol s1 = formatSymbol s2 -> s1 = s2).
  { intros Hseg.
    rewrite <- (formatSymbol_roundtrip_dashfree s1 H1), <- (formatSymbol_roundtrip_dashfree s2 H2).
    rewrite Hseg. reflexivity. }
  split; [exact Hseg|].
  split; [|split; [|split]].
  - intros ex1 ex2 H. apply Hseg. cbn in H. injection H. auto.
  - intros ex1 ex2 H. apply Hseg. cbn in H. injection H. auto.
  - intros tf1 tf2 ex1 ex2 l1 l2 H. apply Hseg. cbn in H. injection H. auto.
  - intros host H. apply Hseg. unfold Lifetime.wsUrl in H.
    apply (append_inj_l "ws://") in H. apply append_inj_l in H.
    apply (append_inj_l "/ws/ticker/") in H. exact H.
Qed.

Lemma formatSymbol_injective_witness : "ETH/USDT" = "ETH/USDT".
Proof.
  apply (proj1 (formatSymbol_injective "ETH/USDT" "ETH/USDT" eq_refl eq_refl)).
  reflexivity.
Defined.

Lemma formatSymbol_first_slash_witness :
  formatSymbol ("BTC" ++ String "/" "USDT/X") = "BTC" ++ String "-" "USDT/X".
Proof.
  apply (proj2 (proj2 (proj2 (proj2 (formatSymbol_first_slash "BTC" "BTC" "USDT/X"))))).
  reflexivity.
Defined.

(** Every request that names a symbol puts it in one path segment when
    the symbol has at most one slash: the address has three slashes. A
    second slash in the symbol stays in the address. The options never
    reach the path. *)
Theorem symbol_requests_path (s : string) (timeframe exchange limit : option string) :
  Forall (fun r => count_char "/" (App.url r) = 3 + Nat.pred (count_char "/" s))
         (symbol_requests s timeframe exchange limit)
  /\ map App.url (symbol_requests s timeframe exchange limit)
     = map App.url (symbol_requests s None None None).
Proof.
  destruct (formatSymbol_counts s) as (_ & Hslash & _).
  split; [|reflexivity].
  unfold symbol_requests.
  repeat constructor; cbn [App.url getTicker getOHLCV getOrderBook getFullAnalysis
                            getIndicators getStructure getFibonacci];
    rewrite count_char_app, Hslash; reflexivity.
Qed.

Example symbol_requests_canonical :
  map App.url (symbol_requests "BTC/USDT" None None None)
  = ["/market/ticker/BTC-USDT"; "/market/ohlcv/BTC-USDT"; "/market/orderbook/BTC-USDT";
     "/analysis/full/BTC-USDT"; "/analysis/indicators/BTC-USDT";
     "/analysis/structure/BTC-USDT"; "/analysis/fibonacci/BTC-USDT"].
Proof. reflexivity. Qed.

(** The dashboard calls the client with the defaults. *)
Example dashboard_requests_defaults (s tf : string) :
  App.getTicker_request s = getTicker s None
  /\ App.getOHLCV_request s tf = getOHLCV s (Some tf) None None
  /\ App.getFullAnalysis_request s = getFullAnalysis s None
  /\ App.getSymbols_request "binance" = getSymbols (Some "binance").
Proof. repeat split; reflexivity. Qed.

End RestPaths.

(** ** The push client over its whole life *)

Section PushClientLifetime.
Import TickerWebSocket Lifetime.

Variable JSON_parse : string -> option value.

Abbreviation step := (TickerWebSocket.step JSON_parse).
Abbreviation run := (TickerWebSocket.run JSON_parse).
Abbreviation onmessage := (TickerWebSocket.onmessage JSON_parse).

Lemma scheduled_delays_emit (e : Effect) (w : World) :
  scheduled_delays (emit e w)
  = (scheduled_delays w ++ match e with SetTimeout d => [d] | _ => [] end)%list.
Proof. unfold scheduled_delays. cbn. rewrite flat_map_app. cbn. rewrite app_nil_r. reflexivity. Qed.

Lemma sockets_created_emit (e : Effect) (w : World) :
  sockets_created (emit e w) = sockets_created w + (if is_NewWebSocket e then 1 else 0).
Proof.
  unfold sockets_created. cbn. rewrite List.filter_app, length_app. cbn.
  destruct (is_NewWebSocket e); reflexivity.
Qed.

(** A message either reaches [onMessage] or changes nothing. *)
Lemma onmessage_cases (payload : string) (w w' : World) :
  onmessage payload w = inr w' -> w' = w \/ exists d, w' = emit (OnMessage d) w.
Proof.
  unfold TickerWebSocket.onmessage.
  destruct (JSON_parse payload) as [data|]; [|discriminate].
  destruct (get_prop data "type") as [e|type]; [discriminate|].
  destruct (strict_eq_string type "ticker").
  - destruct (get_prop data "data") as [e|d]; [discriminate|].
    intros [= <-]. right. exists d. reflexivity.
  - intros [= <-]. left. reflexivity.
Qed.

Lemma consistent_emit (host sym : string) (e : Effect) (w : World) :
  is_NewWebSocket e = false ->
  match e with SetTimeout _ => False | _ => True end ->
  consistent host sym w -> consistent host sym (emit e w).
Proof.
  intros Hnew Hset [].
  constructor; rewrite ?scheduled_delays_emit, ?sockets_created_emit, ?Hnew; cbn; auto.
  - destruct e; try contradiction; rewrite app_nil_r; assumption.
  - apply Forall_app. split; [assumption|]. constructor; [|constructor].
    destruct e; try exact I; try discriminate Hnew; contradiction.
  - lia.
Qed.

Lemma consistent_sockets (host sym : string) (f : list ReadyState -> list ReadyState) (w : World) :
  length (f (sockets w)) = length (sockets w) ->
  consistent host sym w -> consistent host sym (with_sockets f w).
Proof.
  intros Hlen []. constructor; cbn; auto.
  - unfold sockets_created in *. cbn. lia.
  - intros i Hi. rewrite Hlen. auto.
Qed.

Lemma consistent_connect (host sym : string) (w : World) :
  consistent host sym w -> consistent host sym (connect w).
Proof.
  intros []. unfold connect.
  constructor; cbn; rewrite ?length_app; cbn; auto.
  - unfold scheduled_delays in *. cbn. rewrite flat_map_app. cbn.
    rewrite app_nil_r. assumption.
  - apply Forall_app. split; [assumption|]. constructor; [|constructor].
    cbn. unfold wsUrl. rewrite c_host0, c_symbol0. reflexivity.
  - unfold sockets_created in *. cbn. rewrite List.filter_app, length_app. cbn. lia.
  - intros i [= <-]. lia.
Qed.

Lemma consistent_disconnect (host sym : string) (w : World) :
  consistent host sym w -> consistent host sym (disconnect w).
Proof.
  intros Hw. unfold disconnect. destruct (ws (this w)) as [sock|]; [|exact Hw].
  assert (H1 : consistent host sym (with_sockets (ws_close sock) (emit (WsClose sock) w))).
  { apply consistent_sockets; [apply ws_close_length|].
    apply consistent_emit; [reflexivity|exact I|exact Hw]. }
  destruct H1. constructor; cbn in *; auto. intros i Hi. discriminate Hi.
Qed.

Lemma consistent_onclose (host sym : string) (w : World) :
  consistent host sym w -> consistent host sym (onclose w).
Proof.
  intros Hw. unfold onclose.
  destruct (Nat.ltb_spec (reconnectAttempts (this w)) (maxReconnectAttempts (this w)))
    as [Hlt|Hge]; [|exact Hw].
  destruct Hw. rewrite c_max0 in Hlt.
  constructor; cbn; auto.
  - unfold scheduled_delays in *. cbn. rewrite flat_map_app. cbn.
    rewrite c_delays0. rewrite <- repeat_cons. reflexivity.
  - apply Forall_app. split; [assumption|]. constructor; [reflexivity|constructor].
  - apply Forall_app. split; [assumption|]. constructor; [reflexivity|constructor].
  - unfold sockets_created in *. cbn. rewrite List.filter_app, length_app. cbn. lia.
Qed.

Lemma consistent_timer (host sym : string) (k : nat) (w : World) :
  consistent host sym w -> consistent host sym (with_timers (delete k) w).
Proof.
  intros []. constructor; cbn; auto. apply Forall_delete. assumption.
Qed.

Lemma consistent_boot (host sym : string) : consistent host sym (boot host sym).
Proof.
  constructor; cbn;
    [reflexivity|reflexivity|reflexivity|lia|reflexivity|constructor|constructor
    |reflexivity|intros i Hi; discriminate Hi].
Qed.

Lemma consistent_step (host sym : string) (w : World) (ev : Event) :
  consistent host sym w -> consistent host sym (step w ev).
Proof.
  intros Hw.
  destruct ev as [| |sock|sock payload|sock|sock|k]; cbn [TickerWebSocket.step].
  - apply consistent_connect. exact Hw.
  - apply consistent_disconnect. exact Hw.
  - destruct (sockets w !! sock) as [[]|]; try exact Hw.
    apply consistent_sockets; [apply length_insert|exact Hw].
  - destruct (sockets w !! sock) as [[]|]; try exact Hw.
    destruct (onmessage payload w) as [e|w'] eqn:Hmsg.
    + apply consistent_emit; [reflexivity|exact I|exact Hw].
    + destruct (onmessage_cases _ _ _ Hmsg) as [->|[d ->]]; [exact Hw|].
      apply consistent_emit; [reflexivity|exact I|exact Hw].
  - unfold onerror.
    destruct (sockets w !! sock) as [[]|]; try exact Hw;
      (apply consistent_emit; [reflexivity|exact I|exact Hw]).
  - destruct (sockets w !! sock) as [[]|]; try exact Hw;
      (apply consistent_onclose, consistent_sockets; [apply length_insert|exact Hw]).
  - destruct (timers w !! k); [|exact Hw].
    apply consistent_connect, consistent_timer. exact Hw.
Qed.

Lemma consistent_run (host sym : string) (evs : list Event) (w : World) :
  consistent host sym w -> consistent host sym (run w evs).
Proof.
  revert w. induction evs as [|ev evs IH]; intros w Hw; [exact Hw|].
  cbn [TickerWebSocket.run fold_left]. apply IH. apply consistent_step. exact Hw.
Qed.

(** Sockets and pending timeouts against connects and schedules, one
    turn at a time. *)
Ltac tally :=
  unfold scheduled_delays, sockets_created in *; cbn in *;
  rewrite ?flat_map_app, ?List.filter_app, ?length_app; cbn; try lia.

Lemma onclose_accounting (w : World) :
  sockets_created (onclose w) + length (timers (onclose w)) + length (scheduled_delays w)
  = sockets_created w + length (timers w) + length (scheduled_delays (onclose w)).
Proof.
  unfold onclose.
  destruct (reconnectAttempts (this w) <? maxReconnectAttempts (this w))%nat; tally.
Qed.

Lemma step_accounting (w : World) (ev : Event) :
  sockets_created (step w ev) + length (timers (step w ev)) + length (scheduled_delays w)
  = sockets_created w + length (timers w) + length (scheduled_delays (step w ev))
    + (if is_CallConnect ev then 1 else 0).
Proof.
  destruct ev as [| |sock|sock payload|sock|sock|k]; cbn [TickerWebSocket.step is_CallConnect].
  - unfold connect. tally.
  - unfold disconnect. destruct (ws (this w)); tally.
  - destruct (sockets w !! sock) as [[]|]; tally.
  - destruct (sockets w !! sock) as [[]|]; try lia.
    destruct (onmessage payload w) as [e|w'] eqn:Hmsg.
    + tally.
    + apply onmessage_this in Hmsg. destruct Hmsg as (_ & _ & -> & -> & ->). lia.
  - unfold onerror. destruct (sockets w !! sock) as [[]|]; tally.
  - destruct (sockets w !! sock) as [[]|]; try lia;
      match goal with
      | |- context [onclose ?w0] => pose proof (onclose_accounting w0) as Hc
      end; tally.
  - destruct (timers w !! k) as [d|] eqn:Hk; [|lia].
    pose proof (length_delete (timers w) k (ex_intro _ d Hk)) as Hlen.
    apply lookup_lt_Some in Hk.
    unfold connect. tally.
Qed.

Lemma run_accounting (evs : list Event) (w : World) :
  sockets_created (run w evs) + length (timers (run w evs)) + length (scheduled_delays w)
  = sockets_created w + length (timers w) + length (scheduled_delays (run w evs))
    + explicit_connects evs.
Proof.
  revert w. induction evs as [|ev evs IH]; intros w.
  - cbn. unfold explicit_connects. cbn. lia.
  - cbn [TickerWebSocket.run fold_left].
    pose proof (step_accounting w ev) as Hs.
    pose proof (IH (step w ev)) as Hr. unfold TickerWebSocket.run in Hr.
    unfold explicit_connects in *. cbn [List.filter].
    destruct (is_CallConnect ev); cbn [length] in *; lia.
Qed.

(** Over the whole life of an instance, whatever the owner and the
    network do: at most five reconnections are ever scheduled, each one
    3000 ms ahead, and the counter is their number; every socket was
    created by a [connect()] of the owner or by one of those timeouts. *)
Theorem reconnections_bounded (host sym : string) (evs : list Event) :
  let w := run (boot host sym) evs in
  scheduled_delays w = repeat 3000 (reconnectAttempts (this w))
  /\ reconnectAttempts (this w) <= 5
  /\ Forall (fun d => d = 3000) (timers w)
  /\ sockets_created w + length (timers w)
     = explicit_connects evs + reconnectAttempts (this w)
  /\ sockets_created w <= explicit_connects evs + 5.
Proof.
  intros w.
  pose proof (consistent_run host sym evs _ (consistent_boot host sym)) as Hw.
  fold w in Hw. destruct Hw.
  pose proof (run_accounting evs (boot host sym)) as Hacc. fold w in Hacc.
  rewrite c_delays0, repeat_length in Hacc. cbn in Hacc.
  repeat split; auto; lia.
Qed.

(** Every socket an instance opens goes to the one address made of the
    host and the symbol it was created with, and [this.ws] is either
    empty or the socket created last. *)
Theorem sockets_one_address (host sym : string) (evs : list Event) :
  let w := run (boot host sym) evs in
  (forall u, In (NewWebSocket u) (effects w) -> u = wsUrl host sym)
  /\ sockets_created w = length (sockets w)
  /\ (forall i, ws (this w) = Some i -> S i = length (sockets w)).
Proof.
  intros w.
  pose proof (consistent_run host sym evs _ (consistent_boot host sym)) as Hw.
  fold w in Hw. destruct Hw.
  split; [|split; assumption].
  intros u Hu. rewrite Forall_forall in c_effects0.
  apply list_elem_of_In in Hu. apply (c_effects0 _ Hu).
Qed.

(** Payloads at the edges of the message handler: [null] makes it
    throw on [data.type]; any other value that is not an object, and an
    object without a [type], is dropped in silence; a ticker envelope
    without [data] still calls [onMessage], with [undefined]. *)
Theorem onmessage_edge_payloads (w : World) (payload : string) (data : value) :
  JSON_parse payload = Some data ->
  (data = VNull -> onmessage payload w = inl TypeError)
  /\ ((exists b, data = VBool b) \/ (exists n, data = VNumber n)
      \/ (exists s, data = VString s) \/ (exists l, data = VArray l) ->
      onmessage payload w = inr w)
  /\ (forall fields, data = VObject fields -> lookup_field "type" fields = None ->
      onmessage payload w = inr w)
  /\ (forall fields, data = VObject fields ->
      lookup_field "type" fields = Some (VString "ticker") ->
      lookup_field "data" fields = None ->
      onmessage payload w = inr (emit (OnMessage VUndefined) w)).
Proof.
  intros Hparse. unfold TickerWebSocket.onmessage. rewrite Hparse.
  split; [intros ->; reflexivity|].
  split; [intros [[b ->]|[[n ->]|[[s ->]|[l ->]]]]; reflexivity|].
  split.
  - intros fields -> Htype. cbn [get_prop]. rewrite Htype. reflexivity.
  - intros fields -> Htype Hdata. cbn [get_prop]. rewrite Htype, Hdata. reflexivity.
Qed.

Lemma quiet_step (w : World) (ev : Event) :
  is_quiet ev = true ->
  this (step w ev) = this w
  /\ timers (step w ev) = timers w
  /\ scheduled_delays (step w ev) = scheduled_delays w
  /\ sockets_created (step w ev) = sockets_created w.
Proof.
  destruct ev as [| |sock|sock payload|sock|sock|k]; try discriminate; intros _;
    cbn [TickerWebSocket.step].
  - destruct (sockets w !! sock) as [[]|]; auto.
  - destruct (sockets w !! sock) as [[]|]; auto.
    destruct (onmessage payload w) as [e|w'] eqn:Hmsg.
    + rewrite scheduled_delays_emit, sockets_created_emit. cbn.
      rewrite app_nil_r, Nat.add_0_r. auto.
    + apply onmessage_this in Hmsg. destruct Hmsg as (-> & _ & -> & -> & ->). auto.
  - unfold onerror. destruct (sockets w !! sock) as [[]|]; auto;
      rewrite scheduled_delays_emit, sockets_created_emit; cbn;
      rewrite app_nil_r, Nat.add_0_r; auto.
Qed.

(** Only a close event starts a reconnection: however many errors,
    messages and opens the network reports, the counter, the pending
    timeouts and the sockets are what they were. An error that is not
    followed by a close is never retried. *)
Theorem quiet_events_never_reconnect (w : World) (evs : list Event) :
  forallb is_quiet evs = true ->
  this (run w evs) = this w
  /\ timers (run w evs) = timers w
  /\ scheduled_delays (run w evs) = scheduled_delays w
  /\ sockets_created (run w evs) = sockets_created w.
Proof.
  revert w. induction evs as [|ev evs IH]; intros w Hq; [auto|].
  cbn [forallb] in Hq. apply andb_true_iff in Hq. destruct Hq as [Hev Hevs].
  cbn [TickerWebSocket.run fold_left].
  destruct (quiet_step w ev Hev) as (H1 & H2 & H3 & H4).
  destruct (IH (step w ev) Hevs) as (I1 & I2 & I3 & I4).
  unfold TickerWebSocket.run in *.
  rewrite I1, I2, I3, I4. auto.
Qed.

(** [connect()] does not close the socket it replaces, and the
    [disconnect()] that follows closes the new socket only: the earlier
    socket keeps its state and its handlers. *)
Theorem second_connect_orphans (w : World) (i : nat) (st : ReadyState) :
  sockets w !! i = Some st ->
  let w' := run w [CallConnect; CallDisconnect] in
  sockets w' !! i = Some st
  /\ sockets w' !! length (sockets w) = Some CLOSING
  /\ length (sockets w') = S (length (sockets w))
  /\ ws (this w') = None
  /\ effects w'
     = (effects w ++ [NewWebSocket (wsUrl (location_host w) (symbol (this w)));
                      WsClose (length (sockets w))])%list.
Proof.
  intros Hi. pose proof (lookup_lt_Some _ _ _ Hi) as Hlt.
  cbn [TickerWebSocket.run fold_left TickerWebSocket.step].
  unfold disconnect, connect. cbn. unfold ws_close.
  rewrite (list_lookup_middle (sockets w) [] CONNECTING (length (sockets w)) eq_refl).
  rewrite list_lookup_insert_ne by lia.
  rewrite lookup_app_l by exact Hlt.
  rewrite list_lookup_insert_eq by (rewrite length_app; cbn; lia).
  rewrite length_insert, length_app, <- app_assoc. cbn.
  repeat split; auto; lia.
Qed.

(** A second [disconnect()] does nothing: no [close()] is called twice,
    and on an instance that never connected the first one does nothing
    either. *)
Theorem disconnect_idempotent (w : World) :
  disconnect (disconnect w) = disconnect w
  /\ (ws (this w) = None -> disconnect w = w).
Proof.
  assert (Hnone : forall w0, ws (this w0) = None -> disconnect w0 = w0).
  { intros w0 H. unfold disconnect. rewrite H. reflexivity. }
  split; [|apply Hnone].
  apply Hnone. unfold disconnect.
  destruct (ws (this w)) eqn:Hws; [reflexivity|exact Hws].
Qed.

End PushClientLifetime.

(** ** More on the dashboard *)

Section DashboardMore.
Import App AppView.

Lemma same_data_refl (s : State) : same_data s s.
Proof. unfold same_data. repeat split. Qed.

Lemma same_data_setLoading (f : Loading.t -> Loading.t) (s : State) :
  same_data s (setLoading f s).
Proof. unfold same_data. repeat split. Qed.

(** Of all the requests of the dashboard only the analysis request can
    put a message on display: when any other request settles, with
    whatever outcome, the error field is what it was; and so it is
    whenever a timer fires, whichever it is, when the clock moves, and
    when a response comes for no request at all. *)
Theorem only_analysis_sets_error (w : World) :
  (forall id req k o,
     calls w !! id = Some {| request := req; continuation := Some k |} ->
     (forall sym tf, k <> InFetchData sym tf AwaitAnalysis) ->
     error (view (step w (Settles id o))) = error (view w))
  /\ (forall id o, calls w !! id = None ->
        error (view (step w (Settles id o))) = error (view w))
  /\ (forall timer, error (view (step w (IntervalFires timer))) = error (view w))
  /\ (forall ms, error (view (step w (Elapse ms))) = error (view w)).
Proof.
  split; [|split; [|split]].
  - intros id req k o Hcall Hk.
    rewrite (step_Settles _ _ _ _ _ Hcall).
    destruct k as [|sym tf [| |]|sym].
    + unfold resume_fetchSymbols. destruct (getSymbols o); reflexivity.
    + unfold resume_fetchData. destruct (getTicker o); reflexivity.
    + unfold resume_fetchData. destruct (App.getOHLCV o); reflexivity.
    + contradiction (Hk sym tf). reflexivity.
    + unfold resume_refresh. destruct (getTicker o); reflexivity.
  - intros id o Hnone. cbn [step]. rewrite Hnone. reflexivity.
  - intros timer. cbn [step]. destruct (find _ _); reflexivity.
  - intros ms. reflexivity.
Qed.

(** A request of the symbols, the ticker, the bars or the refresher that
    fails changes no data on display: symbols, selection, ticker, bars,
    analysis, error and time stamp are as before; only loading flags
    move. *)
Theorem failed_fetch_keeps_data (w : World) (id : nat) (req : Request)
    (k : Continuation) (o : Outcome) :
  calls w !! id = Some {| request := req; continuation := Some k |} ->
  failed k o ->
  same_data (view w) (view (step w (Settles id o))).
Proof.
  intros Hcall Hfail. rewrite (step_Settles _ _ _ _ _ Hcall).
  destruct k as [|sym tf [| |]|sym]; cbn [failed] in Hfail.
  - destruct Hfail as [e He]. unfold resume_fetchSymbols. rewrite He.
    unfold same_data. repeat split.
  - destruct Hfail as [e He]. unfold resume_fetchData. rewrite He.
    unfold same_data. repeat split.
  - destruct Hfail as [e He]. unfold resume_fetchData. rewrite He.
    unfold same_data. repeat split.
  - contradiction.
  - destruct Hfail as [e He]. unfold resume_refresh. rewrite He.
    unfold same_data. repeat split.
Qed.

(** A failed analysis request keeps the ticker, the bars and the analysis
    that were on display, and always shows a banner: the text it stores
    is never empty. *)
Theorem analysis_failure_keeps_data (w : World) (id : nat) (req : Request)
    (sym tf : string) (o : Outcome) (err : AxiosError) :
  calls w !! id
  = Some {| request := req; continuation := Some (InFetchData sym tf AwaitAnalysis) |} ->
  getFullAnalysis o = inl err ->
  let s' := view (step w (Settles id o)) in
  ticker s' = ticker (view w)
  /\ ohlcv s' = ohlcv (view w)
  /\ analysis s' = analysis (view w)
  /\ lastUpdate s' = lastUpdate (view w)
  /\ error_banner s' = true
  /\ Loading.analysis (loading s') = false.
Proof.
  intros Hcall Herr s'. subst s'. rewrite (step_Settles _ _ _ _ _ Hcall).
  unfold resume_fetchData. rewrite Herr. unfold error_banner. cbn.
  repeat split. destruct (message err); reflexivity.
Qed.

(** *** Bodies without the expected member *)

(** A 2xx answer is taken as it comes. Without a [symbols] member the
    symbol list becomes [undefined], without a [data] member the bars
    become [undefined]; a [null] body makes the member access throw, the
    exception is caught, and the data stays. *)
Theorem body_without_member (w : World) (id : nat) (req : Request) (status : nat)
    (fields : list (string * value)) :
  200 <= status < 300 ->
  (calls w !! id = Some {| request := req; continuation := Some InFetchSymbols |} ->
   (lookup_field "symbols" fields = None ->
    symbols (view (step w (Settles id (Http status (VObject fields))))) = VUndefined)
   /\ same_data (view w) (view (step w (Settles id (Http status VNull)))))
  /\ (forall sym tf,
       calls w !! id
       = Some {| request := req; continuation := Some (InFetchData sym tf AwaitOHLCV) |} ->
       (lookup_field "data" fields = None ->
        ohlcv (view (step w (Settles id (Http status (VObject fields))))) = VUndefined)
       /\ same_data (view w) (view (step w (Settles id (Http status VNull))))).
Proof.
  intros [Hlo Hhi].
  assert (Hok : ((200 <=? status) && (status <? 300))%nat = true).
  { apply andb_true_iff. split; [apply Nat.leb_le|apply Nat.ltb_lt]; assumption. }
  split.
  - intros Hcall. split.
    + intros Hnone. rewrite (step_Settles _ _ _ _ _ Hcall).
      unfold resume_fetchSymbols, getSymbols, api_get. rewrite Hok.
      cbn [get_prop]. rewrite Hnone. reflexivity.
    + rewrite (step_Settles _ _ _ _ _ Hcall).
      unfold resume_fetchSymbols, getSymbols, api_get. rewrite Hok.
      unfold same_data. repeat split.
  - intros sym tf Hcall. split.
    + intros Hnone. rewrite (step_Settles _ _ _ _ _ Hcall).
      unfold resume_fetchData, App.getOHLCV, api_get. rewrite Hok.
      cbn [get_prop]. rewrite Hnone. reflexivity.
    + rewrite (step_Settles _ _ _ _ _ Hcall).
      unfold resume_fetchData, App.getOHLCV, api_get. rewrite Hok.
      unfold same_data. repeat split.
Qed.

(** *** Loading flags *)

Lemma fetchData_stage_loading (w : World) (id : nat) (req : Request) (sym tf : string)
    (at_ : Await) (o : Outcome) :
  calls w !! id = Some {| request := req; continuation := Some (InFetchData sym tf at_) |} ->
  loading (view (step w (Settles id o)))
  = match at_ with
    | AwaitTicker => Loading.set_chart true (Loading.set_ticker false (loading (view w)))
    | AwaitOHLCV => Loading.set_analysis true (Loading.set_chart false (loading (view w)))
    | AwaitAnalysis => Loading.set_analysis false (loading (view w))
    end.
Proof.
  intros Hcall. rewrite (step_Settles _ _ _ _ _ Hcall).
  destruct at_; unfold resume_fetchData.
  - destruct (getTicker o); reflexivity.
  - destruct (App.getOHLCV o); reflexivity.
  - destruct (getFullAnalysis o); reflexivity.
Qed.

(** A [fetchData] that runs alone, its three responses being the next
    three events, leaves its three loading flags down, whatever the
    three outcomes were and whatever the flags were before. *)
Lemma fetchData_clears_flags (w : World) (o1 o2 o3 : Outcome) :
  let n := length (calls w) in
  let w' := run (step w ClickRefresh) [Settles n o1; Settles (S n) o2; Settles (S (S n)) o3] in
  Loading.ticker (loading (view w')) = false
  /\ Loading.chart (loading (view w')) = false
  /\ Loading.analysis (loading (view w')) = false
  /\ Loading.symbols (loading (view w')) = Loading.symbols (loading (view w))
  /\ isLoading (view w') = false.
Proof.
  intros n w'. subst w'.
  set (sym := selectedSymbol (view w)). set (tf := chartTimeframe (view w)).
  set (w0 := step w ClickRefresh).
  assert (H0 : calls w0 !! n
               = Some {| request := getTicker_request sym;
                         continuation := Some (InFetchData sym tf AwaitTicker) |}
               /\ length (calls w0) = S n
               /\ loading (view w0) = Loading.set_ticker true (loading (view w))).
  { subst w0 n. cbn. rewrite lookup_new_call, length_app. cbn. repeat split; lia. }
  destruct H0 as (Hc0 & Hl0 & Hf0).
  rewrite app_run_cons.
  pose proof (fetchData_stage w0 n _ sym tf AwaitTicker o1 Hc0) as (Hc1 & Hl1 & _).
  pose proof (fetchData_stage_loading w0 n _ sym tf AwaitTicker o1 Hc0) as Hf1.
  rewrite Hl0 in Hc1, Hl1.
  set (w1 := step w0 (Settles n o1)) in *.
  rewrite app_run_cons.
  pose proof (fetchData_stage w1 (S n) _ sym tf AwaitOHLCV o2 Hc1) as (Hc2 & Hl2 & _).
  pose proof (fetchData_stage_loading w1 (S n) _ sym tf AwaitOHLCV o2 Hc1) as Hf2.
  rewrite Hl1 in Hc2, Hl2.
  set (w2 := step w1 (Settles (S n) o2)) in *.
  rewrite app_run_cons.
  pose proof (fetchData_stage_loading w2 (S (S n)) _ sym tf AwaitAnalysis o3 Hc2) as Hf3.
  cbn [run fold_left]. unfold isLoading.
  rewrite Hf3, Hf2, Hf1, Hf0. cbn. repeat split.
Qed.

(** *** Flags and pending requests *)

Lemma pending_grow (p : Continuation -> bool) (w w' : World) (l : list Call) :
  calls w' = (calls w ++ l)%list -> pending p w -> pending p w'.
Proof.
  intros Hc (id & req & k & Hid & Hp). exists id, req, k. split; [|exact Hp].
  rewrite Hc. rewrite lookup_app_l; [exact Hid|]. eapply lookup_lt_Some. exact Hid.
Qed.

Lemma pending_last (p : Continuation -> bool) (w' : World) (l : list Call)
    (r : Request) (k : Continuation) :
  calls w' = (l ++ [{| request := r; continuation := Some k |}])%list ->
  p k = true -> pending p w'.
Proof.
  intros Hc Hp. exists (length l), r, k. split; [|exact Hp].
  rewrite Hc. apply lookup_new_call.
Qed.

Lemma pending_settle (p : Continuation -> bool) (w w' : World) (id : nat)
    (req : Request) (k0 : Continuation) (l : list Call) :
  calls w !! id = Some {| request := req; continuation := Some k0 |} ->
  p k0 = false ->
  calls w' = (settle id (calls w) ++ l)%list ->
  pending p w -> pending p w'.
Proof.
  intros Hid0 Hp0 Hc (j & r & k & Hj & Hp).
  assert (Hne : id <> j).
  { intros ->. rewrite Hid0 in Hj. injection Hj as _ <-. congruence. }
  exists j, r, k. split; [|exact Hp].
  rewrite Hc. rewrite lookup_app_l.
  - rewrite settle_lookup_ne by exact Hne. exact Hj.
  - rewrite settle_length. eapply lookup_lt_Some. exact Hj.
Qed.

Lemma flags_pending_same (w w' : World) :
  calls w' = calls w -> loading (view w') = loading (view w) ->
  flags_pending w -> flags_pending w'.
Proof.
  intros Hc Hl (H1 & H2 & H3 & H4).
  assert (Hp : forall p, pending p w -> pending p w').
  { intros p. apply (pending_grow p w w' []). rewrite app_nil_r. exact Hc. }
  unfold flags_pending. rewrite Hl. repeat split; intros H; apply Hp; auto.
Qed.

Lemma flags_pending_fetchSymbols (w : World) :
  flags_pending w -> flags_pending (fetchSymbols w).
Proof.
  intros (H1 & H2 & H3 & H4).
  assert (Hp : forall p, pending p w -> pending p (fetchSymbols w)).
  { intros p. eapply pending_grow. reflexivity. }
  unfold flags_pending. cbn. repeat split; intros H; try solve [apply Hp; auto].
  eapply pending_last; reflexivity.
Qed.

Lemma flags_pending_fetchData (sym tf : string) (w : World) :
  flags_pending w -> flags_pending (fetchData sym tf w).
Proof.
  intros (H1 & H2 & H3 & H4).
  assert (Hp : forall p, pending p w -> pending p (fetchData sym tf w)).
  { intros p. eapply pending_grow. reflexivity. }
  unfold flags_pending. cbn. repeat split; intros H; try solve [apply Hp; auto].
  eapply pending_last; reflexivity.
Qed.

Lemma flags_pending_start_interval (sym : string) (w : World) :
  flags_pending w -> flags_pending (start_interval sym w).
Proof. apply flags_pending_same; reflexivity. Qed.

Lemma flags_pending_run_cleanup (w : World) :
  flags_pending w -> flags_pending (run_cleanup w).
Proof.
  unfold run_cleanup. destruct (cleanup w); [|auto].
  apply flags_pending_same; reflexivity.
Qed.

Lemma flags_pending_with_view (f : State -> State) (w : World) :
  (forall s, loading (f s) = loading s) ->
  flags_pending w -> flags_pending (with_view f w).
Proof. intros Hf. apply flags_pending_same; [reflexivity|apply Hf]. Qed.

Lemma flags_pending_step (w : World) (ev : Event) :
  flags_pending w -> flags_pending (step w ev).
Proof.
  intros Hw.
  destruct ev as [|s|tf| |iid|id o|ms]; cbn [step].
  - unfold mount.
    apply flags_pending_start_interval, flags_pending_fetchData, flags_pending_fetchSymbols.
    exact Hw.
  - assert (H1 : flags_pending
                   (with_view (setTicker VNull)
                      (with_view (setAnalysis VNull)
                         (with_view (setSelectedSymbol s) w)))).
    { repeat (apply flags_pending_with_view; [reflexivity|]). exact Hw. }
    unfold handleSymbolChange.
    destruct (negb (s =? selectedSymbol (view w))%string); [|exact H1].
    apply flags_pending_start_interval, flags_pending_fetchData, flags_pending_run_cleanup.
    exact H1.
  - unfold handleTimeframeChange.
    destruct (negb (tf =? chartTimeframe (view w))%string).
    + apply flags_pending_fetchData. eapply flags_pending_same; [| |exact Hw]; reflexivity.
    + eapply flags_pending_same; [| |exact Hw]; reflexivity.
  - apply flags_pending_fetchData. exact Hw.
  - destruct (find _ _) as [iv|]; [|exact Hw].
    destruct Hw as (H1 & H2 & H3 & H4).
    assert (Hp : forall p, pending p w -> pending p (refresh (iv_symbol iv) w)).
    { intros p. eapply pending_grow. reflexivity. }
    unfold flags_pending. cbn. repeat split; intros H; apply Hp; auto.
  - destruct (calls w !! id) as [[r [k|]]|] eqn:Hcall; try exact Hw.
    destruct Hw as (H1 & H2 & H3 & H4).
    destruct k as [|sym tf [| |]|sym].
    + unfold resume_fetchSymbols, flags_pending.
      destruct (getSymbols o); cbn; repeat split; intros H; try discriminate H;
        (eapply pending_settle; [exact Hcall|reflexivity|cbn; symmetry; apply app_nil_r|solve [auto]]).
    + unfold resume_fetchData, flags_pending.
      destruct (getTicker o); cbn; repeat split; intros H; try discriminate H;
        try solve [eapply pending_settle; [exact Hcall|reflexivity|cbn; reflexivity|solve [auto]]];
        (eapply pending_last; reflexivity).
    + unfold resume_fetchData, flags_pending.
      destruct (getOHLCV o); cbn; repeat split; intros H; try discriminate H;
        try solve [eapply pending_settle; [exact Hcall|reflexivity|cbn; reflexivity|solve [auto]]];
        (eapply pending_last; reflexivity).
    + unfold resume_fetchData, flags_pending.
      destruct (getFullAnalysis o); cbn; repeat split; intros H; try discriminate H;
        (eapply pending_settle; [exact Hcall|reflexivity|cbn; symmetry; apply app_nil_r|solve [auto]]).
    + unfold resume_refresh, flags_pending.
      destruct (getTicker o); cbn; repeat split; intros H;
        (eapply pending_settle; [exact Hcall|reflexivity|cbn; symmetry; apply app_nil_r|solve [auto]]).
  - eapply flags_pending_same; [| |exact Hw]; reflexivity.
Qed.

Lemma flags_pending_run (evs : list Event) (w : World) :
  flags_pending w -> flags_pending (run w evs).
Proof.
  revert w. induction evs as [|ev evs IH]; intros w Hw; [exact Hw|].
  rewrite app_run_cons. apply IH, flags_pending_step, Hw.
Qed.

Lemma flags_pending_boot : flags_pending boot.
Proof. unfold flags_pending. cbn. repeat split; intros H; discriminate H. Qed.

(** A loading flag is up only while a request of its kind is pending, in
    every state the dashboard can reach: so with no request pending the
    four flags are down and Refresh is enabled. The flag of a stage goes
    down whenever a request of that stage settles, with any outcome. *)
Theorem loading_flags_have_pending (evs : list Event) :
  let w := run boot evs in
  flags_pending w
  /\ ((forall id req k,
         calls w !! id <> Some {| request := req; continuation := Some k |}) ->
      loading (view w) = Loading.initial /\ isLoading (view w) = false)
  /\ (forall id req sym tf at_ o,
        calls w !! id
        = Some {| request := req; continuation := Some (InFetchData sym tf at_) |} ->
        match at_ with
        | AwaitTicker => Loading.ticker (loading (view (step w (Settles id o)))) = false
        | AwaitOHLCV => Loading.chart (loading (view (step w (Settles id o)))) = false
        | AwaitAnalysis => Loading.analysis (loading (view (step w (Settles id o)))) = false
        end).
Proof.
  intros w.
  assert (Hw : flags_pending w) by apply flags_pending_run, flags_pending_boot.
  split; [exact Hw|]. split.
  - intros Hnone.
    assert (Hno : forall p, ~ pending p w).
    { intros p (id & req & k & Hid & _). exact (Hnone id req k Hid). }
    destruct Hw as (H1 & H2 & H3 & H4). unfold isLoading.
    destruct (loading (view w)) as [a b c d]. cbn in *.
    destruct a; [exfalso; apply (Hno _ (H1 eq_refl))|].
    destruct b; [exfalso; apply (Hno _ (H2 eq_refl))|].
    destruct c; [exfalso; apply (Hno _ (H3 eq_refl))|].
    destruct d; [exfalso; apply (Hno _ (H4 eq_refl))|].
    split; reflexivity.
  - intros id req sym tf at_ o Hcall.
    rewrite (fetchData_stage_loading w id req sym tf at_ o Hcall).
    destruct at_; reflexivity.
Qed.

(** The Refresh button does not wait for the bars. Right after a ticker
    request of a run has settled, [isLoading] is the analysis flag as it
    was, the chart flag is up and the bars of that run have just been
    requested; so when no analysis request is pending the button is
    enabled with the run still in progress. *)
Theorem refresh_enabled_during_bars (evs : list Event) (id : nat) (req : Request)
    (sym tf : string) (o : Outcome) :
  let w := run boot evs in
  calls w !! id
  = Some {| request := req; continuation := Some (InFetchData sym tf AwaitTicker) |} ->
  let w' := step w (Settles id o) in
  isLoading (view w') = Loading.analysis (loading (view w))
  /\ Loading.chart (loading (view w')) = true
  /\ calls w' !! length (calls w)
     = Some {| request := getOHLCV_request sym tf;
               continuation := Some (InFetchData sym tf AwaitOHLCV) |}
  /\ ((forall j r s t,
         calls w !! j
         <> Some {| request := r; continuation := Some (InFetchData s t AwaitAnalysis) |}) ->
      isLoading (view w') = false).
Proof.
  intros w Hcall w'. subst w'.
  pose proof (fetchData_stage w id req sym tf AwaitTicker o Hcall) as (Hnext & _ & _).
  pose proof (fetchData_stage_loading w id req sym tf AwaitTicker o Hcall) as Hflags.
  assert (His : isLoading (view (step w (Settles id o))) = Loading.analysis (loading (view w))).
  { unfold isLoading. rewrite Hflags. cbn. apply orb_false_r. }
  split; [exact His|]. split; [rewrite Hflags; reflexivity|]. split; [exact Hnext|].
  intros Hnone. rewrite His.
  assert (Hw : flags_pending w) by apply flags_pending_run, flags_pending_boot.
  destruct Hw as (_ & _ & _ & H4).
  destruct (Loading.analysis (loading (view w))); [|reflexivity].
  destruct (H4 eq_refl) as (j & r & k & Hj & Hk).
  destruct k as [|s t [| |]|s]; try discriminate Hk.
  contradiction (Hnone j r s t Hj).
Qed.

(** *** Selections *)

(** Picking the symbol that is already selected empties the ticker and
    the analysis and asks for nothing: no request leaves, the refresh
    timer is not restarted, the error and the bars stay. The analysis
    stays empty until some later trigger. *)
Theorem reselect_same_symbol (w : World) :
  let w' := step w (SelectSymbol (selectedSymbol (view w))) in
  ticker (view w') = VNull
  /\ analysis (view w') = VNull
  /\ issued w' = issued w
  /\ calls w' = calls w
  /\ intervals w' = intervals w
  /\ log w' = log w
  /\ displayed w' = displayed w
  /\ ohlcv (view w') = ohlcv (view w)
  /\ error (view w') = error (view w)
  /\ loading (view w') = loading (view w).
Proof.
  intros w'. subst w'. cbn [step]. unfold handleSymbolChange.
  rewrite String.eqb_refl. cbn. repeat split.
Qed.

(** Picking the timeframe that is already selected changes nothing at
    all. A new timeframe starts a fetch but keeps what is on display
    and leaves the refresh timer alone. *)
Theorem timeframe_change (w : World) (tf : string) :
  step w (SelectTimeframe (chartTimeframe (view w))) = w
  /\ (tf <> chartTimeframe (view w) ->
      let w' := step w (SelectTimeframe tf) in
      displayed w' = (selectedSymbol (view w), tf)
      /\ ticker (view w') = ticker (view w)
      /\ ohlcv (view w') = ohlcv (view w)
      /\ analysis (view w') = analysis (view w)
      /\ error (view w') = None
      /\ intervals w' = intervals w
      /\ log w' = log w).
Proof.
  split.
  - cbn [step]. unfold handleTimeframeChange. rewrite String.eqb_refl. cbn.
    destruct w as [[] ? ? ? ? ? ?]. reflexivity.
  - intros Hne w'. subst w'. cbn [step]. unfold handleTimeframeChange.
    apply String.eqb_neq in Hne. rewrite Hne. cbn. repeat split.
Qed.

Lemma step_displayed (w : World) (ev : Event) :
  is_selection ev = false -> displayed (step w ev) = displayed w.
Proof.
  destruct ev as [|s|tf| |iid|id o|ms]; try discriminate; intros _; cbn [step].
  - reflexivity.
  - reflexivity.
  - destruct (find _ _); reflexivity.
  - destruct (calls w !! id) as [[r [k|]]|]; try reflexivity.
    destruct k as [|sym tf at_|sym].
    + unfold resume_fetchSymbols. destruct (getSymbols o); reflexivity.
    + unfold displayed.
      destruct (view_resume_fetchData sym tf at_ o (with_calls (settle id) w)) as [-> ->].
      reflexivity.
    + unfold resume_refresh. destruct (getTicker o); reflexivity.
  - reflexivity.
Qed.

(** What is displayed (symbol and timeframe) changes by the user's
    selections only: no response, timer, refresh or first render ever
    changes it. *)
Theorem selection_only_by_user (w : World) (evs : list Event) :
  forallb (fun ev => negb (is_selection ev)) evs = true ->
  displayed (run w evs) = displayed w.
Proof.
  revert w. induction evs as [|ev evs IH]; intros w Hevs; [reflexivity|].
  cbn [forallb] in Hevs. apply andb_true_iff in Hevs. destruct Hevs as [Hev Hevs].
  rewrite app_run_cons, (IH _ Hevs). apply step_displayed.
  destruct (is_selection ev); [discriminate Hev|reflexivity].
Qed.

End DashboardMore.

(** ** The symbol picker *)

Section Picker.
Import SymbolSelector.

Lemma array_includes_In (l : list string) (x : string) :
  array_includes l x = true <-> In x l.
Proof.
  unfold array_includes. rewrite existsb_exists. split.
  - intros (y & Hy & Heq). apply String.eqb_eq in Heq. subst y. exact Hy.
  - intros Hx. exists x. split; [exact Hx|apply String.eqb_refl].
Qed.

Lemma filter_other_In (s x : string) (l : list string) :
  In x (List.filter (fun y => negb (String.eqb y s)) l) <-> In x l /\ x <> s.
Proof.
  rewrite List.filter_In, negb_true_iff, String.eqb_neq. reflexivity.
Qed.

Lemma filter_absent (s : string) (l : list string) :
  ~ In s l -> List.filter (fun y => negb (String.eqb y s)) l = l.
Proof.
  induction l as [|y l IH]; intros Hs; [reflexivity|].
  cbn [List.filter]. destruct (String.eqb_spec y s) as [->|Hne].
  - contradiction Hs. left. reflexivity.
  - cbn [negb]. rewrite IH; [reflexivity|]. intros H. apply Hs. right. exact H.
Qed.

(** Toggling a favorite flips that symbol and no other: it is a
    favorite afterwards exactly when it was not before, every other
    symbol stays in or out, and a list without repetitions stays without
    repetitions. *)
Theorem toggleFavorite_flips (s x : string) (prev : list string) :
  (In s (toggleFavorite s prev) <-> ~ In s prev)
  /\ (x <> s -> (In x (toggleFavorite s prev) <-> In x prev))
  /\ (List.NoDup prev -> List.NoDup (toggleFavorite s prev)).
Proof.
  unfold toggleFavorite.
  destruct (array_includes prev s) eqn:Hin.
  - apply array_includes_In in Hin.
    split; [|split].
    + rewrite filter_other_In. split; [intros [_ H]; contradiction|intros H; contradiction].
    + intros Hne. rewrite filter_other_In. split; [intros [H _]; exact H|auto].
    + intros Hnd. apply List.NoDup_filter. exact Hnd.
  - assert (Hout : ~ In s prev).
    { intros H. apply array_includes_In in H. congruence. }
    split; [|split].
    + rewrite in_app_iff. split; [auto|]. intros _. right. left. reflexivity.
    + intros Hne. rewrite in_app_iff. split; [|auto].
      intros [H|[H|[]]]; [exact H|]. congruence.
    + intros Hnd. apply List.NoDup_app; [exact Hnd|repeat constructor; intros []|].
      intros y Hy [<-|[]]. contradiction.
Qed.

(** Toggling twice gives the list back when the symbol was not a
    favorite; when it was, the symbol ends up last: its place in the list
    is lost. *)
Theorem toggleFavorite_twice (s : string) (prev : list string) :
  (~ In s prev -> toggleFavorite s (toggleFavorite s prev) = prev)
  /\ (In s prev ->
      toggleFavorite s (toggleFavorite s prev)
      = (List.filter (fun y => negb (String.eqb y s)) prev ++ [s])%list).
Proof.
  split.
  - intros Hout.
    assert (Hstep : toggleFavorite s prev = (prev ++ [s])%list).
    { unfold toggleFavorite. destruct (array_includes prev s) eqn:Hin; [|reflexivity].
      apply array_includes_In in Hin. contradiction. }
    rewrite Hstep. unfold toggleFavorite.
    assert (Hnow : array_includes (prev ++ [s]) s = true).
    { apply array_includes_In, in_app_iff. right. left. reflexivity. }
    rewrite Hnow, List.filter_app. cbn. rewrite String.eqb_refl. cbn.
    rewrite app_nil_r. apply filter_absent. exact Hout.
  - intros Hin.
    assert (Hstep : toggleFavorite s prev
                    = List.filter (fun y => negb (String.eqb y s)) prev).
    { unfold toggleFavorite. apply array_includes_In in Hin. rewrite Hin. reflexivity. }
    rewrite Hstep. unfold toggleFavorite.
    destruct (array_includes _ s) eqn:Hnow; [|reflexivity].
    apply array_includes_In, filter_other_In in Hnow. destruct Hnow as [_ Hne].
    contradiction Hne. reflexivity.
Qed.

Lemma replace_absent (pat rep s : string) :
  includes s pat = false -> replace pat rep s = s.
Proof.
  induction s as [|c rest IH]; cbn [includes replace].
  - destruct (strip_prefix pat EmptyString); [discriminate|reflexivity].
  - destruct (strip_prefix pat (String c rest)); [discriminate|].
    intros H. rewrite IH by exact H. reflexivity.
Qed.

(** The short name of a symbol: a pair quoted in USDT shows its base
    alone, and a symbol in which [/USDT] does not occur is shown whole. *)
Theorem displaySymbol_base (base s : string) :
  (count_char "/" base = 0 -> displaySymbol (base ++ "/USDT") = base)
  /\ (includes s "/USDT" = false -> displaySymbol s = s).
Proof.
  unfold displaySymbol. split; [|apply replace_absent].
  induction base as [|c rest IH]; intros Hbase; [reflexivity|].
  cbn [count_char] in Hbase. cbn [String.append replace strip_prefix].
  rewrite Ascii.eqb_sym.
  destruct (Ascii.eqb c "/"); [discriminate Hbase|].
  rewrite IH by exact Hbase. reflexivity.
Qed.

Lemma displaySymbol_base_witness :
  displaySymbol ("BTC" ++ "/USDT") = "BTC" /\ displaySymbol "ETH/BTC" = "ETH/BTC".
Proof.
  split.
  - apply (proj1 (displaySymbol_base "BTC" "ETH/BTC")). reflexivity.
  - apply (proj2 (displaySymbol_base "BTC" "ETH/BTC")). reflexivity.
Defined.

Lemma firstn_In (n : nat) (l : list string) (x : string) :
  In x (firstn n l) -> In x l.
Proof.
  revert l. induction n as [|n IH]; intros [|y l] H; try contradiction.
  cbn [firstn] in H. destruct H as [->|H]; [left; reflexivity|right; apply IH; exact H].
Qed.

Lemma NoDup_firstn (n : nat) (l : list string) :
  List.NoDup l -> List.NoDup (firstn n l).
Proof.
  revert l. induction n as [|n IH]; intros l Hl; [constructor|].
  destruct l as [|x l]; [constructor|].
  inversion Hl as [|? ? Hx Hl']; subst. cbn [firstn]. constructor.
  - intros H. apply Hx. apply (firstn_In _ _ _ H).
  - apply IH. exact Hl'.
Qed.

Variable toLowerCase : string -> string.
Hypothesis toLowerCase_empty : toLowerCase EmptyString = EmptyString.

Lemma includes_empty (s : string) : includes s EmptyString = true.
Proof. destruct s; reflexivity. Qed.

Lemma filter_sublist (f : string -> bool) (l : list string) :
  sublist (List.filter f l) l.
Proof.
  induction l as [|x l IH]; cbn [List.filter]; [constructor|].
  destruct (f x); [apply sublist_skip|apply sublist_cons]; exact IH.
Qed.

(** The list of the picker. With an empty search box every symbol
    qualifies. Whatever the search, the matches are the symbols whose
    lower-cased name includes the lower-cased search, all of them, in the
    order of the symbol list; the rows are the first fifty of the
    matches, in that order: row [i] is match [i] for [i] below fifty,
    there is no row from fifty on, and the matches are the rows followed
    by the matches that are not listed. Symbols without repetitions give
    rows without repetitions. *)
Theorem picker_rows (symbols : list string) (search : string) :
  filteredSymbols toLowerCase symbols EmptyString = symbols
  /\ (forall x, In x (rows toLowerCase symbols search) ->
        In x symbols /\ includes (toLowerCase x) (toLowerCase search) = true)
  /\ length (rows toLowerCase symbols search)
     = Nat.min 50 (length (filteredSymbols toLowerCase symbols search))
  /\ length (rows toLowerCase symbols search) <= 50
  /\ (List.NoDup symbols -> List.NoDup (rows toLowerCase symbols search))
  /\ filteredSymbols toLowerCase symbols search
     = (rows toLowerCase symbols search
        ++ skipn 50 (filteredSymbols toLowerCase symbols search))%list
  /\ (forall i, i < 50 ->
        rows toLowerCase symbols search !! i
        = filteredSymbols toLowerCase symbols search !! i)
  /\ (forall i, 50 <= i -> rows toLowerCase symbols search !! i = None)
  /\ sublist (filteredSymbols toLowerCase symbols search) symbols
  /\ (forall x, In x symbols -> includes (toLowerCase x) (toLowerCase search) = true ->
        In x (filteredSymbols toLowerCase symbols search))
  /\ (forall l1 l2,
        filteredSymbols toLowerCase (l1 ++ l2) search
        = (filteredSymbols toLowerCase l1 search
           ++ filteredSymbols toLowerCase l2 search)%list).
Proof.
  unfold rows, filteredSymbols.
  split.
  { rewrite toLowerCase_empty. induction symbols as [|y l IH]; [reflexivity|].
    cbn [List.filter]. rewrite includes_empty, IH. reflexivity. }
  split.
  { intros x Hx. apply firstn_In in Hx. apply List.filter_In in Hx. exact Hx. }
  split; [apply List.length_firstn|].
  split; [rewrite List.length_firstn; lia|].
  split; [intros Hnd; apply NoDup_firstn, List.NoDup_filter; exact Hnd|].
  split; [symmetry; apply firstn_skipn|].
  split; [intros i Hi; apply lookup_take_lt; exact Hi|].
  split; [intros i Hi; apply lookup_ge_None; rewrite List.length_firstn; lia|].
  split; [apply filter_sublist|].
  split; [intros x Hx Hm; apply List.filter_In; auto|].
  intros l1 l2. apply List.filter_app.
Qed.

End Picker.

Lemma picker_rows_witness :
  SymbolSelector.filteredSymbols SymbolSelector.ascii_toLowerCase
    (repeat "BTC/USDT" 60) "btc"
  = (SymbolSelector.rows SymbolSelector.ascii_toLowerCase (repeat "BTC/USDT" 60) "btc"
     ++ skipn 50 (SymbolSelector.filteredSymbols SymbolSelector.ascii_toLowerCase
                    (repeat "BTC/USDT" 60) "btc"))%list.
Proof.
  apply (proj1 (proj2 (proj2 (proj2 (proj2 (proj2
           (picker_rows SymbolSelector.ascii_toLowerCase eq_refl
              (repeat "BTC/USDT" 60) "btc"))))))).
Defined.

(** Sixty matches, fifty rows. *)
Example picker_sixty_matches :
  length (SymbolSelector.filteredSymbols SymbolSelector.ascii_toLowerCase
            (repeat "BTC/USDT" 60) "btc") = 60
  /\ length (SymbolSelector.rows SymbolSelector.ascii_toLowerCase
               (repeat "BTC/USDT" 60) "btc") = 50.
Proof. vm_compute. split; reflexivity. Qed.

Example picker_search_sol :
  SymbolSelector.rows SymbolSelector.ascii_toLowerCase SymbolSelector.POPULAR_SYMBOLS "sol"
  = ["SOL/USDT"].
Proof. reflexivity. Qed.

Example toggle_popular :
  SymbolSelector.toggleFavorite "ETH/USDT" SymbolSelector.POPULAR_SYMBOLS
  = ["BTC/USDT"; "SOL/USDT"; "XRP/USDT"; "DOGE/USDT"; "ADA/USDT"].
Proof. reflexivity. Qed.

(** ** The further properties on concrete runs *)

Section MoreRuns.
Import TickerWebSocket Lifetime.

Lemma sockets_one_address_witness :
  "ws://localhost:5173/ws/ticker/BTC-USDT" = wsUrl "localhost:5173" "BTC/USDT".
Proof.
  apply (proj1 (sockets_one_address Json.parse "localhost:5173" "BTC/USDT"
                  (CallConnect :: failures 2))).
  vm_compute. right. right. left. reflexivity.
Defined.

Lemma onmessage_edge_payloads_witness :
  onmessage Json.parse "null" fresh = inl TypeError
  /\ onmessage Json.parse (Json.dq "{'type':'ticker'}") fresh
     = inr (emit (OnMessage VUndefined) fresh).
Proof.
  split.
  - apply (proj1 (onmessage_edge_payloads Json.parse fresh "null" VNull eq_refl)).
    reflexivity.
  - apply (proj2 (proj2 (proj2
             (onmessage_edge_payloads Json.parse fresh (Json.dq "{'type':'ticker'}")
                (VObject [("type", VString "ticker")]) eq_refl)))
             [("type", VString "ticker")]); reflexivity.
Defined.

Lemma quiet_events_never_reconnect_witness :
  timers (run Json.parse (connect fresh) [SockOpen 0; SockError 0; SockMessage 0 "x"; SockError 0])
  = timers (connect fresh).
Proof.
  apply (quiet_events_never_reconnect Json.parse (connect fresh)
           [SockOpen 0; SockError 0; SockMessage 0 "x"; SockError 0]).
  reflexivity.
Defined.

Lemma second_connect_orphans_witness :
  sockets (run Json.parse (run Json.parse fresh [CallConnect; SockOpen 0])
             [CallConnect; CallDisconnect]) !! 0
  = Some OPEN.
Proof.
  apply (second_connect_orphans Json.parse
           (run Json.parse fresh [CallConnect; SockOpen 0]) 0 OPEN).
  reflexivity.
Defined.

Lemma disconnect_idempotent_witness : disconnect fresh = fresh.
Proof. apply (proj2 (disconnect_idempotent fresh)). reflexivity. Defined.

End MoreRuns.

Section MoreDashboardRuns.
Import App AppView.

Lemma only_analysis_sets_error_witness :
  error (view (step (run boot [Mount]) (Settles 1 (Http 503 VNull))))
  = error (view (run boot [Mount])).
Proof.
  apply (proj1 (only_analysis_sets_error (run boot [Mount])) 1
           (getTicker_request "BTC/USDT")
           (InFetchData "BTC/USDT" "1h" AwaitTicker) (Http 503 VNull)).
  - reflexivity.
  - intros sym tf H. discriminate H.
Defined.

Lemma failed_fetch_keeps_data_witness :
  same_data (view (run boot [Mount])) (view (step (run boot [Mount]) (Settles 1 NetworkError))).
Proof.
  apply (failed_fetch_keeps_data (run boot [Mount]) 1 (getTicker_request "BTC/USDT")
           (InFetchData "BTC/USDT" "1h" AwaitTicker) NetworkError).
  - reflexivity.
  - cbn. eexists. reflexivity.
Defined.

Lemma analysis_failure_keeps_data_witness :
  error_banner
    (view (step (run boot [Mount; Settles 1 (Http 200 btc_ticker); Settles 2 (Http 200 bars)])
                (Settles 3 Timeout)))
  = true.
Proof.
  apply (analysis_failure_keeps_data
           (run boot [Mount; Settles 1 (Http 200 btc_ticker); Settles 2 (Http 200 bars)])
           3 (getFullAnalysis_request "BTC/USDT") "BTC/USDT" "1h" Timeout
           {| message := "timeout of 30000ms exceeded"; response := None |});
    reflexivity.
Defined.

Lemma body_without_member_witness :
  symbols (view (step (run boot [Mount]) (Settles 0 (Http 200 (VObject [])))))
  = VUndefined.
Proof.
  assert (Hstatus : 200 <= 200 < 300) by lia.
  apply (proj1 (body_without_member (run boot [Mount]) 0 (getSymbols_request "binance")
                  200 [] Hstatus)); reflexivity.
Defined.

Lemma loading_flags_have_pending_witness :
  loading (view (run boot [Mount; Settles 0 NetworkError; Settles 1 Timeout;
                           Settles 2 NetworkError; Settles 3 (Http 500 VNull)]))
  = Loading.initial.
Proof.
  apply (proj1 (proj2 (loading_flags_have_pending
                         [Mount; Settles 0 NetworkError; Settles 1 Timeout;
                          Settles 2 NetworkError; Settles 3 (Http 500 VNull)]))).
  intros id req k.
  do 4 (destruct id as [|id]; [intros H; discriminate H|]).
  intros H; discriminate H.
Defined.

(** The flags are shared by all runs: the ticker flag goes down with the
    first ticker response while the ticker request of a second run is
    still pending. *)
Example shared_ticker_flag :
  let w := run boot [Mount; ClickRefresh; Settles 1 (Http 200 btc_ticker)] in
  Loading.ticker (loading (view w)) = false
  /\ generation_of w 2 = Some ("BTC/USDT", "1h").
Proof. vm_compute. split; reflexivity. Qed.

Lemma refresh_enabled_during_bars_witness :
  isLoading (view (step (run boot [Mount]) (Settles 1 (Http 200 btc_ticker)))) = false.
Proof.
  apply (refresh_enabled_during_bars [Mount] 1 (getTicker_request "BTC/USDT")
           "BTC/USDT" "1h" (Http 200 btc_ticker) eq_refl).
  intros j r s t.
  do 2 (destruct j as [|j]; [intros H; discriminate H|]).
  intros H; discriminate H.
Defined.

Lemma timeframe_change_witness :
  ticker (view (step (run boot [Mount; Settles 1 (Http 200 btc_ticker)]) (SelectTimeframe "4h")))
  = btc_ticker.
Proof.
  apply (proj2 (timeframe_change (run boot [Mount; Settles 1 (Http 200 btc_ticker)]) "4h")).
  intros H. discriminate H.
Defined.

Lemma selection_only_by_user_witness :
  displayed (run boot [Mount; Settles 1 (Http 200 btc_ticker); IntervalFires 0; ClickRefresh])
  = ("BTC/USDT", "1h").
Proof.
  apply (selection_only_by_user boot
           [Mount; Settles 1 (Http 200 btc_ticker); IntervalFires 0; ClickRefresh]).
  reflexivity.
Defined.

End MoreDashboardRuns.

Section MorePickerRuns.
Import SymbolSelector.

Lemma toggleFavorite_flips_witness :
  In "ETH/USDT" (toggleFavorite "DOT/USDT" POPULAR_SYMBOLS).
Proof.
  apply (proj1 (proj2 (toggleFavorite_flips "DOT/USDT" "ETH/USDT" POPULAR_SYMBOLS))).
  - intros H. discriminate H.
  - right. left. reflexivity.
Defined.

Lemma toggleFavorite_twice_witness :
  toggleFavorite "DOT/USDT" (toggleFavorite "DOT/USDT" POPULAR_SYMBOLS) = POPULAR_SYMBOLS.
Proof.
  apply (proj1 (toggleFavorite_twice "DOT/USDT" POPULAR_SYMBOLS)).
  intros H. repeat (destruct H as [H|H]; [discriminate H|]). exact H.
Defined.

(** A favorite that is toggled off and on again moves to the end. *)
Example toggle_twice_moves :
  toggleFavorite "ETH/USDT" (toggleFavorite "ETH/USDT" POPULAR_SYMBOLS)
  = ["BTC/USDT"; "SOL/USDT"; "XRP/USDT"; "DOGE/USDT"; "ADA/USDT"; "ETH/USDT"].
Proof. reflexivity. Qed.

End MorePickerRuns.
